(** * chatgpt-export-reader: the export-to-record transformation and the store

    A shallow embedding of [internal/importer] (timeline reconstruction and
    record normalisation) and of [internal/storage] (the merge policy of
    [Upsert]), together with the parts of Go's [strings], [math] and [time]
    packages that the two packages call.

    Conventions.
    - A Go [string] is a byte sequence: Rocq's [string], one [ascii] per byte.
      [len], slicing and [<] are bytewise, as in Go.
    - A [*float64] is [option float64]; a [float64] is an IEEE-754 binary64
      value, [spec_float] with precision 53 and maximal exponent 1024.
    - A [time.Time] in UTC without monotonic reading is the pair of its
      seconds since January 1, year 1 (an [int64]) and its nanoseconds.
    - Go maps are [gmap]s. The order in which [range] visits a map, the
      reading of the clock and the Unicode case tables are inputs of the
      functions that depend on them. *)

From Stdlib Require Import ZArith NArith Ascii String Floats.SpecFloat DecimalString.
From stdpp Require Import gmap strings list sorting.

Local Open Scope Z_scope.

(** ** Package [strings] *)

Module Strings.

Definition bytes (s : string) : list N :=
  N_of_ascii <$> list_ascii_of_string s.

Definition of_bytes (b : list N) : string :=
  string_of_list_ascii (ascii_of_N <$> b).

Definition len (s : string) : nat := String.length s.

(** [s[:n]] for [n <= len s]. *)
Definition slice_to (s : string) (n : nat) : string := String.substring 0 n s.

(** [s[n:]] for [n <= len s]. *)
Definition slice_from (s : string) (n : nat) : string :=
  String.substring n (len s - n) s.

Definition HasSuffix (s suffix : string) : bool :=
  (len suffix <=? len s)%nat
  && bool_decide (slice_from s (len s - len suffix) = suffix).

(** The table [asciiSpace]: tab, line feed, vertical tab, form feed,
    carriage return, space. *)
Definition asciiSpace (c : N) : bool :=
  match c with
  | 9 | 10 | 11 | 12 | 13 | 32 => true
  | _ => false
  end%N.

(** The white-space runes beyond [asciiSpace], by their UTF-8 bytes:
    [unicode.IsSpace] holds of U+0085 and U+00A0 (two bytes) and of U+1680,
    U+2000 to U+200A, U+2028, U+2029, U+202F, U+205F and U+3000 (three
    bytes). A rune decodes to one of them from its shortest form only. *)
Definition spaceRune2 (c1 c2 : N) : bool :=
  ((c1 =? 0xC2) && ((c2 =? 0x85) || (c2 =? 0xA0)))%N.

Definition spaceRune3 (c1 c2 c3 : N) : bool :=
  (((c1 =? 0xE1) && (c2 =? 0x9A) && (c3 =? 0x80))
   || ((c1 =? 0xE2) && (c2 =? 0x80)
       && (((0x80 <=? c3) && (c3 <=? 0x8A))
           || (c3 =? 0xA8) || (c3 =? 0xA9) || (c3 =? 0xAF)))
   || ((c1 =? 0xE2) && (c2 =? 0x81) && (c3 =? 0x9F))
   || ((c1 =? 0xE3) && (c2 =? 0x80) && (c3 =? 0x80)))%N.

(** Width in bytes of the white-space rune the byte sequence starts with, or
    [0] when it starts with none. *)
Definition leadingSpace (b : list N) : nat :=
  match b with
  | c1 :: c2 :: c3 :: _ =>
      if asciiSpace c1 then 1
      else if spaceRune2 c1 c2 then 2
      else if spaceRune3 c1 c2 c3 then 3 else 0
  | [c1; c2] => if asciiSpace c1 then 1 else if spaceRune2 c1 c2 then 2 else 0
  | [c1] => if asciiSpace c1 then 1 else 0
  | [] => 0
  end%nat.

(** The same for the rune the sequence ends with; the argument is the byte
    sequence reversed. *)
Definition trailingSpace (rb : list N) : nat :=
  match rb with
  | c3 :: c2 :: c1 :: _ =>
      if asciiSpace c3 then 1
      else if spaceRune2 c2 c3 then 2
      else if spaceRune3 c1 c2 c3 then 3 else 0
  | [c2; c1] => if asciiSpace c2 then 1 else if spaceRune2 c1 c2 then 2 else 0
  | [c1] => if asciiSpace c1 then 1 else 0
  | [] => 0
  end%nat.

(** Drop white-space runes from the front, at most [fuel] of them. *)
Fixpoint trimWith (width : list N → nat) (fuel : nat) (b : list N) : list N :=
  match fuel with
  | O => b
  | S fuel' =>
      match width b with
      | O => b
      | n => trimWith width fuel' (drop n b)
      end
  end.

Definition TrimLeftSpace (b : list N) : list N :=
  trimWith leadingSpace (length b) b.

Definition TrimRightSpace (b : list N) : list N :=
  reverse (trimWith trailingSpace (length b) (reverse b)).

(** [strings.TrimSpace]: its ASCII fast path and its fall-back
    [TrimFunc(s, unicode.IsSpace)] compute the same slice. *)
Definition TrimSpace (s : string) : string :=
  of_bytes (TrimRightSpace (TrimLeftSpace (bytes s))).

(** [strings.ReplaceAll(s, old, new)] for a one-byte [old]. *)
Fixpoint ReplaceAll (s : string) (old : ascii) (new : string) : string :=
  match s with
  | EmptyString => EmptyString
  | String c s' =>
      if bool_decide (c = old) then new +:+ ReplaceAll s' old new
      else String c (ReplaceAll s' old new)
  end.

(** [strings.ToLower] on the bytes below 0x80. On other bytes Go applies the
    Unicode case tables; the importer takes the whole function as an input,
    and this one instantiates it for ASCII text. *)
Definition asciiToLower (s : string) : string :=
  of_bytes ((λ c, if (65 <=? c) && (c <=? 90) then c + 32 else c)%N <$> bytes s).

(** Go's [<] on strings: lexicographic on bytes. *)
Definition lt (a b : string) : bool := String.ltb a b.

Fixpoint repeat (c : ascii) (n : nat) : string :=
  match n with
  | O => EmptyString
  | S n' => String c (repeat c n')
  end.

End Strings.

(** ** Package [math] and the conversion [int64(f)] *)

Module Math.

Definition prec : Z := 53.
Definition emax : Z := 1024.

Abbreviation float64 := spec_float.

(** The binary64 value [m * 2^e], rounded to nearest even. *)
Definition of_dyadic (m e : Z) : float64 := binary_normalize prec emax m e false.
Definition of_int (z : Z) : float64 := of_dyadic z 0.

Definition mul (x y : float64) : float64 := SFmul prec emax x y.

(** [math.Modf]: the integer and the fractional part, both with the sign of
    [f]; [Modf(±Inf) = ±Inf, NaN] and [Modf(NaN) = NaN, NaN]. The integer part
    of [m * 2^e] with [e < 0] is [m / 2^(-e)], the rest [(m mod 2^(-e)) * 2^e];
    both are exact. *)
Definition Modf (f : float64) : float64 * float64 :=
  match f with
  | S754_zero _ => (f, f)
  | S754_infinity _ => (f, S754_nan)
  | S754_nan => (S754_nan, S754_nan)
  | S754_finite s m e =>
      if 0 <=? e then (f, S754_zero s)
      else
        let d := 2 ^ (- e) in
        (match Z.pos m / d with
         | Z.pos q => S754_finite s q 0
         | _ => S754_zero s
         end,
         match Z.pos m mod d with
         | Z.pos r => S754_finite s r e
         | _ => S754_zero s
         end)
  end.

Definition minInt64 : Z := - 2 ^ 63.

(** [int64(f)]: the fraction is discarded (truncation towards zero). For a
    value that does not fit, and for NaN, Go leaves the result to the
    implementation; amd64's conversion instruction yields the least
    [int64], which is what is modelled. *)
Definition int64 (f : float64) : Z :=
  match f with
  | S754_zero _ => 0
  | S754_finite s m e =>
      let a := if 0 <=? e then Z.pos m * 2 ^ e else Z.pos m / 2 ^ (- e) in
      let z := if s then - a else a in
      if (minInt64 <=? z) && (z <? 2 ^ 63) then z else minInt64
  | _ => minInt64
  end.

End Math.

(** ** Package [time] *)

Module GoTime.

(** A [time.Time] without monotonic clock reading, in UTC: [sec] counts the
    seconds since January 1, year 1, 00:00:00 UTC, [nsec] the nanoseconds
    within the second. Every instant of the program passes through [UTC()],
    which strips the monotonic reading. *)
Record Time := mkTime { sec : Z; nsec : Z }.

#[global] Instance Time_eq_dec : EqDecision Time.
Proof. solve_decision. Defined.

(** [time.Time{}] *)
Definition zero : Time := mkTime 0 0.

(** Arithmetic on [int64] wraps around. *)
Definition wrap64 (z : Z) : Z := (z + 2 ^ 63) mod 2 ^ 64 - 2 ^ 63.

Definition unixToInternal : Z := 62135596800.

(** [time.Unix(sec, nsec)]; Go's [/] on integers truncates towards zero. *)
Definition Unix (s n : Z) : Time :=
  let '(s, n) :=
    if (n <? 0) || (1000000000 <=? n) then
      let q := n ÷ 1000000000 in
      let s := wrap64 (s + q) in
      let n := n - q * 1000000000 in
      if n <? 0 then (wrap64 (s - 1), n + 1000000000) else (s, n)
    else (s, n) in
  mkTime (wrap64 (s + unixToInternal)) n.

Definition UTC (t : Time) : Time := t.

Definition IsZero (t : Time) : bool := (sec t =? 0) && (nsec t =? 0).

Definition After (t u : Time) : bool :=
  (sec u <? sec t) || ((sec t =? sec u) && (nsec u <? nsec t)).

Definition Before (t u : Time) : bool :=
  (sec t <? sec u) || ((sec t =? sec u) && (nsec t <? nsec u)).

Definition Equal (t u : Time) : bool :=
  (sec t =? sec u) && (nsec t =? nsec u).

(** *** Calendar *)

Definition absoluteZeroYear : Z := -292277022399.
Definition internalToAbsolute : Z := 9223371966579724800.
Definition secondsPerDay : Z := 86400.
Definition daysPer400Years : Z := 365 * 400 + 97.
Definition daysPer100Years : Z := 365 * 100 + 24.
Definition daysPer4Years : Z := 365 * 4 + 1.

(** Seconds since January 1 of [absoluteZeroYear], a [uint64]. *)
Definition abs (t : Time) : Z := (sec t + internalToAbsolute) mod 2 ^ 64.

Definition isLeap (year : Z) : bool :=
  (Z.rem year 4 =? 0) && (negb (Z.rem year 100 =? 0) || (Z.rem year 400 =? 0)).

Definition daysBefore : list Z :=
  [0; 31; 59; 90; 120; 151; 181; 212; 243; 273; 304; 334; 365].

(** Year, month and day of the month of an absolute time. *)
Definition absDate (a : Z) : Z * Z * Z :=
  let d := a / secondsPerDay in
  let n := d / daysPer400Years in
  let y := 400 * n in
  let d := d - daysPer400Years * n in
  let n := d / daysPer100Years in
  let n := n - Z.shiftr n 2 in
  let y := y + 100 * n in
  let d := d - daysPer100Years * n in
  let n := d / daysPer4Years in
  let y := y + 4 * n in
  let d := d - daysPer4Years * n in
  let n := d / 365 in
  let n := n - Z.shiftr n 2 in
  let y := y + n in
  let d := d - 365 * n in
  let year := y + absoluteZeroYear in
  let leap := isLeap year in
  if leap && (d =? 31 + 29 - 1) then (year, 2, 29)
  else
    let day := if leap && (31 + 29 - 1 <? d) then d - 1 else d in
    let month := day / 31 in
    let endm := nth (Z.to_nat (month + 1)) daysBefore 0 in
    if endm <=? day then (year, month + 2, day - endm + 1)
    else (year, month + 1, day - nth (Z.to_nat month) daysBefore 0 + 1).

(** Hour, minute and second of an absolute time. *)
Definition absClock (a : Z) : Z * Z * Z :=
  let s := a mod secondsPerDay in
  (s / 3600, (s mod 3600) / 60, s mod 60).

(** [appendInt]: the decimal form of [x], padded with zeros to [width]
    digits, after a minus sign when [x] is negative. *)
Definition appendInt (x : Z) (width : nat) : string :=
  let digits := NilZero.string_of_uint (N.to_uint (Z.to_N (Z.abs x))) in
  (if x <? 0 then "-" else "")
  +:+ Strings.repeat "0"%char (width - String.length digits) +:+ digits.

(** The layout elements the program uses. *)
Inductive chunk :=
  | stdLongYear | stdZeroMonth | stdZeroDay
  | stdHour | stdZeroMinute | stdZeroSecond
  | lit (s : string).

Definition formatChunk (t : Time) (c : chunk) : string :=
  let '(year, month, day) := absDate (abs t) in
  let '(hour, minute, second) := absClock (abs t) in
  match c with
  | stdLongYear => appendInt year 4
  | stdZeroMonth => appendInt month 2
  | stdZeroDay => appendInt day 2
  | stdHour => appendInt hour 2
  | stdZeroMinute => appendInt minute 2
  | stdZeroSecond => appendInt second 2
  | lit s => s
  end.

Definition Format (t : Time) (layout : list chunk) : string :=
  foldr (λ c acc, formatChunk t c +:+ acc) "" layout.

(** ["2006-01-02"] *)
Definition layoutDate : list chunk :=
  [stdLongYear; lit "-"; stdZeroMonth; lit "-"; stdZeroDay].

(** ["20060102150405"] *)
Definition layoutStamp : list chunk :=
  [stdLongYear; stdZeroMonth; stdZeroDay; stdHour; stdZeroMinute; stdZeroSecond].

End GoTime.

(** ** Package [models] *)

Module Models.

Record Message := mkMessage {
  mID : string;
  mAuthor : string;
  mContent : string;
  mCreatedAt : GoTime.Time
}.

Record Conversation := mkConversation {
  ID : string;
  Title : string;
  Summary : string;
  DateStarted : string;
  DateEnded : string;
  SourceID : string;
  Messages : list Message;
  CreatedAt : GoTime.Time;
  UpdatedAt : GoTime.Time
}.

#[global] Instance Message_eq_dec : EqDecision Message.
Proof. solve_decision. Defined.

#[global] Instance Conversation_eq_dec : EqDecision Conversation.
Proof. solve_decision. Defined.

End Models.

(** ** Package [importer] *)

Module Importer.

Import GoTime Models.

(** A content part is a [json.RawMessage]. [collectStringParts] unmarshals it
    into a [string] and looks at it only when that succeeds: [JString text]
    is a part that is a JSON string, decoded; [JOther] is any other part (an
    object, a number, ...; [null] leaves the empty string and is skipped as
    well). *)
Inductive rawPart :=
  | JString (text : string)
  | JOther.

Record exportContent := mkContent {
  ContentType : string;
  Parts : list rawPart
}.

Record exportAuthor := mkAuthor { Role : string }.

Record exportMessage := mkExportMessage {
  msgID : string;
  Author : exportAuthor;
  msgCreateTime : option Math.float64;
  msgUpdateTime : option Math.float64;
  Content : exportContent
}.

Record exportNode := mkNode {
  nodeID : string;
  Parent : string;
  Children : list string;
  Message : option exportMessage
}.

Record exportConversation := mkExport {
  rawID : string;
  ConversationID : string;
  rawTitle : string;
  CreateTime : option Math.float64;
  UpdateTime : option Math.float64;
  CurrentNode : string;
  Mapping : gmap string exportNode
}.

(** [(m *exportMessage) GetCreateTime()]: callable on the nil pointer. *)
Definition GetCreateTime (m : option exportMessage) : option Math.float64 :=
  match m with
  | None => None
  | Some m => msgCreateTime m
  end.

Definition toTime (value : option Math.float64) : Time * bool :=
  match value with
  | None => (GoTime.zero, false)
  | Some v =>
      let '(seconds, frac) := Math.Modf v in
      let t := UTC (Unix (Math.int64 seconds)
                         (Math.int64 (Math.mul frac (Math.of_int 1000000000)))) in
      if IsZero t then (GoTime.zero, false) else (t, true)
  end.

Definition timestampOrZero (value : option Math.float64) : Time :=
  let '(t, ok) := toTime value in
  if ok then t else GoTime.zero.

(** The loop of [collectStringParts] over the parts, [builder] being the
    text written so far. *)
Definition writePart (builder : string) (part : rawPart) : string :=
  match part with
  | JOther => builder
  | JString text =>
      let cleaned := Strings.TrimSpace text in
      if bool_decide (cleaned = "") then builder
      else (if (0 <? Strings.len builder)%nat then builder +:+ "

" else builder) +:+ cleaned
  end.

Definition collectStringParts (parts : list rawPart) : string :=
  Strings.TrimSpace (foldl writePart "" parts).

Definition extractText (content : exportContent) : string :=
  if bool_decide (ContentType content = "text") then
    collectStringParts (Parts content)
  else if bool_decide (ContentType content = "multimodal_text") then
    collectStringParts (Parts content)
  else "".

Definition truncate (text : string) (limit : nat) : string :=
  if (Strings.len text <=? limit)%nat then text
  else
    let trimmed := Strings.TrimSpace (Strings.slice_to text limit) in
    if negb (Strings.HasSuffix trimmed "...") then trimmed +:+ "..."
    else trimmed.

Fixpoint firstNonEmpty (values : list string) : string :=
  match values with
  | [] => ""
  | v :: values' =>
      if bool_decide (Strings.TrimSpace v ≠ "") then Strings.TrimSpace v
      else firstNonEmpty values'
  end.

(** The comparison [sort.Slice] is given in [timelineByTimestamps]. *)
Definition less (a b : exportNode) : bool :=
  let '(ti, okI) := toTime (GetCreateTime (Message a)) in
  let '(tj, okJ) := toTime (GetCreateTime (Message b)) in
  if okI && okJ then
    if Equal ti tj then Strings.lt (nodeID a) (nodeID b)
    else Before ti tj
  else if okI then true
  else if okJ then false
  else Strings.lt (nodeID a) (nodeID b).

(** [sort.Slice] promises a permutation that is sorted for [less] and
    nothing about elements that compare equal. The model sorts by
    insertion and keeps equal elements in the order of the input. *)
Fixpoint insert {A} (less : A → A → bool) (x : A) (l : list A) : list A :=
  match l with
  | [] => [x]
  | y :: l' => if less y x then y :: insert less x l' else x :: l
  end.

Definition sort_Slice {A} (less : A → A → bool) (l : list A) : list A :=
  foldr (insert less) [] l.

(** The loop of [traversalPath]. [None] is the loop still running when the
    fuel is used up. *)
Fixpoint walk (fuel : nat) (mapping : gmap string exportNode)
    (seen : gset string) (nodeID : string) (path : list exportNode)
    : option (list exportNode) :=
  match fuel with
  | O => None
  | S fuel' =>
      if bool_decide (nodeID = "") then Some path
      else
        match mapping !! nodeID with
        | None => Some path
        | Some node =>
            let path := path ++ [node] in
            if bool_decide (nodeID ∈ seen) then Some path
            else walk fuel' mapping ({[nodeID]} ∪ seen) (Parent node) path
        end
  end.

(** The state of the loop of [convertConversation] over the timeline. *)
Record scan := mkScan {
  earliest : Time;
  latest : Time;
  hasEarliest : bool;
  hasLatest : bool;
  firstUser : string;
  firstAssistant : string;
  messages : list Models.Message
}.

Definition scan0 : scan := mkScan GoTime.zero GoTime.zero false false "" "" [].

Definition trackTime (st : scan) (value : option Math.float64) : scan :=
  let '(ts, ok) := toTime value in
  if ok then
    let st :=
      if negb (hasEarliest st) || Before ts (earliest st)
      then mkScan ts (latest st) true (hasLatest st)
                  (firstUser st) (firstAssistant st) (messages st)
      else st in
    if negb (hasLatest st) || After ts (latest st)
    then mkScan (earliest st) ts (hasEarliest st) true
                (firstUser st) (firstAssistant st) (messages st)
    else st
  else st.

Section Importer.

(** [strings.ToLower], with the Unicode case tables it consults. *)
Variable ToLower : string → string.

(** The order in which [range] visits the values of a map in this run. *)
Variable range : gmap string exportNode → list exportNode.

Definition timelineByTimestamps (raw : exportConversation) : list exportNode :=
  sort_Slice less (range (Mapping raw)).

Definition traversalPath (raw : exportConversation) : list exportNode :=
  if bool_decide (CurrentNode raw = "") then timelineByTimestamps raw
  else
    let path :=
      default [] (walk (S (size (Mapping raw))) (Mapping raw) ∅
                       (CurrentNode raw) []) in
    let path := reverse path in
    if bool_decide (length path = 0%nat) then timelineByTimestamps raw
    else path.

(** One turn of the loop of [convertConversation]. *)
Definition visit (st : scan) (node : exportNode) : scan :=
  match Message node with
  | None => st
  | Some m =>
      let st := trackTime st (msgCreateTime m) in
      let text := extractText (Content m) in
      if bool_decide (text = "") then st
      else
        let role := ToLower (Role (Author m)) in
        let message :=
          mkMessage (nodeID node) role text (timestampOrZero (msgCreateTime m)) in
        if bool_decide (role = "user") then
          mkScan (earliest st) (latest st) (hasEarliest st) (hasLatest st)
                 (if bool_decide (firstUser st = "") then text else firstUser st)
                 (firstAssistant st) (messages st ++ [message])
        else if bool_decide (role = "assistant") then
          mkScan (earliest st) (latest st) (hasEarliest st) (hasLatest st)
                 (firstUser st)
                 (if bool_decide (firstAssistant st = "") then text
                  else firstAssistant st)
                 (messages st ++ [message])
        else st
  end.

Definition newDeterministicID (seed : string) (t : Time) : string :=
  let base := Strings.ReplaceAll (ToLower seed) " "%char "-" in
  let base := if bool_decide (base = "") then "conversation" else base in
  base +:+ "-" +:+ Format t layoutStamp.

(** [now] is what [time.Now()] returns during the call. *)
Definition convertConversation (now : Time) (raw : exportConversation)
    : option Conversation :=
  if bool_decide (size (Mapping raw) = 0%nat) then None
  else
    let timeline := traversalPath raw in
    if bool_decide (length timeline = 0%nat) then None
    else
      let st := foldl visit scan0 timeline in
      let '(earliest, hasEarliest) :=
        if negb (hasEarliest st) then
          let '(ts, ok) := toTime (CreateTime raw) in
          if ok then (ts, true) else (earliest st, hasEarliest st)
        else (earliest st, hasEarliest st) in
      let '(latest, hasLatest) :=
        if negb (hasLatest st) then
          let '(ts, ok) := toTime (UpdateTime raw) in
          if ok then (ts, true) else (latest st, hasLatest st)
        else (latest st, hasLatest st) in
      let summary := firstNonEmpty [firstUser st; firstAssistant st] in
      let summary := truncate summary 240 in
      let summary :=
        if bool_decide (summary = "") then "No summary available" else summary in
      let title := Strings.TrimSpace (rawTitle raw) in
      let title :=
        if bool_decide (title = "") then
          let title := truncate summary 80 in
          if bool_decide (title = "") then "Untitled conversation" else title
        else title in
      let '(dateStarted, createdAt) :=
        if hasEarliest then (Format (UTC earliest) layoutDate, UTC earliest)
        else ("", UTC now) in
      let '(dateEnded, updatedAt) :=
        if hasLatest then (Format (UTC latest) layoutDate, UTC latest)
        else ("", createdAt) in
      let id := Strings.TrimSpace (ConversationID raw) in
      let id := if bool_decide (id = "") then Strings.TrimSpace (rawID raw) else id in
      let id := if bool_decide (id = "") then newDeterministicID title createdAt else id in
      Some (mkConversation id title summary dateStarted dateEnded id
                           (messages st) createdAt updatedAt).

(** [LoadAndConvert] on the outcome of [readExport] (an error, or the
    decoded array); [clock i] is the time at which entry [i] is converted. *)
Fixpoint convertAll (clock : nat → Time) (i : nat)
    (payload : list exportConversation) : list Conversation :=
  match payload with
  | [] => []
  | raw :: payload' =>
      match convertConversation (clock i) raw with
      | Some item => item :: convertAll clock (S i) payload'
      | None => convertAll clock (S i) payload'
      end
  end.

Definition LoadAndConvert {E} (clock : nat → Time)
    (readExport : E + list exportConversation) : E + list Conversation :=
  match readExport with
  | inl err => inl err
  | inr payload => inr (convertAll clock 0 payload)
  end.

End Importer.

(** The order of [range] that follows the keys. *)
Definition rangeByKey (m : gmap string exportNode) : list exportNode :=
  (map_to_list m).*2.

End Importer.

(** ** Package [storage] *)

Module Storage.

Import GoTime Models.

Definition withCreatedAt (c : Conversation) (t : Time) : Conversation :=
  mkConversation (ID c) (Title c) (Summary c) (DateStarted c) (DateEnded c)
                 (SourceID c) (Messages c) t (UpdatedAt c).

Definition withUpdatedAt (c : Conversation) (t : Time) : Conversation :=
  mkConversation (ID c) (Title c) (Summary c) (DateStarted c) (DateEnded c)
                 (SourceID c) (Messages c) (CreatedAt c) t.

Section Store.

(** The error type, and [saveLocked], which writes the whole map to the file
    of the store and returns the error of the file system, if any. *)
Variable error : Type.
Variable saveLocked : gmap string Conversation → option error.

(** [Upsert] on the map [s.conversations], under the lock of the store:
    the map after the call and the error returned. [now] is what
    [time.Now()] returns. *)
Definition Upsert (now : Time) (conversation : Conversation)
    (conversations : gmap string Conversation)
    : gmap string Conversation * option error :=
  let now := UTC now in
  let conversation :=
    match conversations !! ID conversation with
    | Some existing =>
        if IsZero (CreatedAt conversation)
        then withCreatedAt conversation (CreatedAt existing)
        else conversation
    | None =>
        if IsZero (CreatedAt conversation)
        then withCreatedAt conversation now
        else conversation
    end in
  let conversation :=
    if IsZero (UpdatedAt conversation)
    then withUpdatedAt conversation now
    else conversation in
  let conversations := <[ID conversation := conversation]> conversations in
  (conversations, saveLocked conversations).

(** [Get] *)
Definition Get (id : string) (conversations : gmap string Conversation)
    : option Conversation :=
  conversations !! id.

End Store.

Definition withTitle (c : Conversation) (title : string) : Conversation :=
  mkConversation (ID c) title (Summary c) (DateStarted c) (DateEnded c)
                 (SourceID c) (Messages c) (CreatedAt c) (UpdatedAt c).

Definition withMessages (c : Conversation) (ms : list Message) : Conversation :=
  mkConversation (ID c) (Title c) (Summary c) (DateStarted c) (DateEnded c)
                 (SourceID c) ms (CreatedAt c) (UpdatedAt c).

(** [models.Conversation{}] *)
Definition noConversation : Conversation :=
  mkConversation "" "" "" "" "" "" [] GoTime.zero GoTime.zero.

(** The comparison [List] and [saveLocked] give to [sort.Slice]: later
    update instants first, equal instants by title. *)
Definition byUpdate (a b : Conversation) : bool :=
  if Equal (UpdatedAt a) (UpdatedAt b) then Strings.lt (Title a) (Title b)
  else After (UpdatedAt a) (UpdatedAt b).

(** What [os.Open] and the JSON decoder make of the file of the store:
    there is no file, opening fails otherwise, or the file is open and the
    decoder returns an error or the array under ["conversations"]. *)
Inductive storeFile (error : Type) :=
  | NotExist
  | OpenFails (err : error)
  | Opened (decoded : error + list Conversation).

Arguments NotExist {error}.
Arguments OpenFails {error} err.
Arguments Opened {error} decoded.

Section Operations.

Variable error : Type.

(** [ErrNotFound] *)
Variable ErrNotFound : error.

(** The order in which [range] visits the values of the map in this run. *)
Variable range : gmap string Conversation → list Conversation.

(** Encoding the payload into the temporary file and renaming the file:
    the error of the file system, if any. *)
Variable writeFile : list Conversation → option error.

(** The slice [saveLocked] encodes. *)
Definition payload (conversations : gmap string Conversation)
    : list Conversation :=
  Importer.sort_Slice byUpdate (range conversations).

Definition saveLocked (conversations : gmap string Conversation)
    : option error :=
  writeFile (payload conversations).

(** [List] *)
Definition List (conversations : gmap string Conversation)
    : list Conversation :=
  Importer.sort_Slice byUpdate
    ((λ item, withMessages item []) <$> range conversations).

(** [UpdateTitle]: the map after the call, the conversation and the error
    returned. *)
Definition UpdateTitle (now : Time) (id title : string)
    (conversations : gmap string Conversation)
    : gmap string Conversation * (Conversation * option error) :=
  match conversations !! id with
  | None => (conversations, (noConversation, Some ErrNotFound))
  | Some convo =>
      let convo := withTitle convo title in
      let convo := withUpdatedAt convo (UTC now) in
      let conversations := <[id := convo]> conversations in
      match saveLocked conversations with
      | Some err => (conversations, (noConversation, Some err))
      | None => (conversations, (convo, None))
      end
  end.

(** [Delete] *)
Definition Delete (id : string) (conversations : gmap string Conversation)
    : gmap string Conversation * option error :=
  match conversations !! id with
  | None => (conversations, Some ErrNotFound)
  | Some _ =>
      let conversations := delete id conversations in
      (conversations, saveLocked conversations)
  end.

(** [DeleteAll] *)
Definition DeleteAll (conversations : gmap string Conversation)
    : gmap string Conversation * option error :=
  (∅, saveLocked ∅).

(** [load], after the lock is taken: [mkdirAll] is the error of
    [os.MkdirAll], if any. *)
Definition load (mkdirAll : option error) (file : storeFile error)
    (conversations : gmap string Conversation)
    : gmap string Conversation * option error :=
  match mkdirAll with
  | Some err => (conversations, Some err)
  | None =>
      match file with
      | NotExist => (conversations, None)
      | OpenFails err => (conversations, Some err)
      | Opened (inl err) => (conversations, Some err)
      | Opened (inr payload) =>
          (foldl (λ m item, <[ID item := item]> m) conversations payload, None)
      end
  end.

(** [New]: the map of the store, or the error. *)
Definition New (mkdirAll : option error) (file : storeFile error)
    : error + gmap string Conversation :=
  match load mkdirAll file ∅ with
  | (_, Some err) => inl err
  | (conversations, None) => inr conversations
  end.

End Operations.

End Storage.

(** ** Command [importer] *)

Module Command.

Import GoTime Models Storage.

Section Main.

Variable error : Type.
Variable saveLocked : gmap string Conversation → option error.

(** The loop of [main] over the converted items: the map of the store and
    the counters [created] and [updated] after the loop, or the error at
    which [log.Fatalf] ends the program. [clock i] is the time of the
    [Upsert] of item [i]. *)
Fixpoint importItems (clock : nat → Time) (i : nat) (items : list Conversation)
    (conversations : gmap string Conversation) (created updated : nat)
    : error + (gmap string Conversation * nat * nat) :=
  match items with
  | [] => inr (conversations, created, updated)
  | item :: items' =>
      let '(created, updated) :=
        match Get (ID item) conversations with
        | Some _ => (created, S updated)
        | None => (S created, updated)
        end in
      match Upsert error saveLocked (clock i) item conversations with
      | (_, Some err) => inl err
      | (conversations, None) =>
          importItems clock (S i) items' conversations created updated
      end
  end.

End Main.

End Command.

(** ** Package [api]: the handlers that write to the store *)

Module Api.

Import GoTime Models Storage.

(** What a handler writes: the record or the error message as JSON, the
    page of [http.NotFound], or the status line alone. *)
Inductive body :=
  | JSONConversation (c : Conversation)
  | JSONError (msg : string)
  | NotFoundPage
  | NoBody.

Record response := mkResponse { status : nat; content : body }.

(** The payload of [createConversation], decoded. *)
Record createPayload := mkCreate {
  cTitle : string;
  cSummary : string;
  cDateStarted : string;
  cDateEnded : string;
  cSourceID : string
}.

(** The payload of [patchConversation], decoded: pointers to strings. *)
Record patchPayload := mkPatch {
  pTitle : option string;
  pSummary : option string;
  pDateStarted : option string;
  pDateEnded : option string
}.

Section Handlers.

Variable error : Type.

(** [err.Error()] *)
Variable errorText : error → string.

Variable saveLocked : gmap string Conversation → option error.

(** [createConversation]: [decoded] is what [decodeJSON] returns, [id] what
    [newID()] returns. The map of the store after the call and the
    response. *)
Definition createConversation (now : Time) (id : string)
    (decoded : error + createPayload)
    (conversations : gmap string Conversation)
    : gmap string Conversation * response :=
  match decoded with
  | inl err => (conversations, mkResponse 400 (JSONError (errorText err)))
  | inr payload =>
      let title := Strings.TrimSpace (cTitle payload) in
      let summary := Strings.TrimSpace (cSummary payload) in
      let dateStarted := Strings.TrimSpace (cDateStarted payload) in
      let dateEnded := Strings.TrimSpace (cDateEnded payload) in
      let sourceID := Strings.TrimSpace (cSourceID payload) in
      if bool_decide (title = "") || bool_decide (summary = "") then
        (conversations,
         mkResponse 400 (JSONError "title and summary are required"))
      else
        let convo :=
          mkConversation id title summary dateStarted dateEnded sourceID []
                         GoTime.zero GoTime.zero in
        match Upsert error saveLocked now convo conversations with
        | (conversations, Some err) =>
            (conversations, mkResponse 500 (JSONError (errorText err)))
        | (conversations, None) =>
            (conversations, mkResponse 201 (JSONConversation convo))
        end
  end.

(** [patchConversation]: [decoded] is the error of [decodeJSON] other than
    [io.EOF], or the payload (all fields nil after [io.EOF]); [now] is the
    clock the handler reads, [later] the clock [Upsert] reads. *)
Definition patchConversation (now later : Time) (id : string)
    (decoded : error + patchPayload)
    (conversations : gmap string Conversation)
    : gmap string Conversation * response :=
  match decoded with
  | inl err => (conversations, mkResponse 400 (JSONError (errorText err)))
  | inr payload =>
      match Get id conversations with
      | None => (conversations, mkResponse 404 NotFoundPage)
      | Some convo =>
          let newTitle := Strings.TrimSpace <$> pTitle payload in
          if bool_decide (newTitle = Some "") then
            (conversations, mkResponse 400 (JSONError "title cannot be empty"))
          else
            let convo := from_option (withTitle convo) convo newTitle in
            let newSummary := Strings.TrimSpace <$> pSummary payload in
            if bool_decide (newSummary = Some "") then
              (conversations,
               mkResponse 400 (JSONError "summary cannot be empty"))
            else
              let convo :=
                match newSummary with
                | Some summary =>
                    mkConversation (ID convo) (Title convo) summary
                      (DateStarted convo) (DateEnded convo) (SourceID convo)
                      (Messages convo) (CreatedAt convo) (UpdatedAt convo)
                | None => convo
                end in
              let convo :=
                match pDateStarted payload with
                | Some d =>
                    mkConversation (ID convo) (Title convo) (Summary convo)
                      (Strings.TrimSpace d) (DateEnded convo) (SourceID convo)
                      (Messages convo) (CreatedAt convo) (UpdatedAt convo)
                | None => convo
                end in
              let convo :=
                match pDateEnded payload with
                | Some d =>
                    mkConversation (ID convo) (Title convo) (Summary convo)
                      (DateStarted convo) (Strings.TrimSpace d) (SourceID convo)
                      (Messages convo) (CreatedAt convo) (UpdatedAt convo)
                | None => convo
                end in
              let convo := withUpdatedAt convo (UTC now) in
              match Upsert error saveLocked later convo conversations with
              | (conversations, Some err) =>
                  (conversations, mkResponse 500 (JSONError (errorText err)))
              | (conversations, None) =>
                  (conversations, mkResponse 200 (JSONConversation convo))
              end
      end
  end.

End Handlers.

End Api.

(** ** Concrete exports and records *)

Module Samples.

Import GoTime Models Importer.

Definition textMessage (role text : string) (t : option Math.float64)
    : exportMessage :=
  mkExportMessage "m" (mkAuthor role) t None (mkContent "text" [JString text]).

(** The example of the specification: a user turn and the answer, linked
    through [current_node]. *)
Definition helloExport : exportConversation :=
  mkExport "" "c1" "" None None "n2"
    (<["n1" := mkNode "n1" "" ["n2"]
                 (Some (textMessage "user" "Hello" (Some (Math.of_int 1000))))]>
     (<["n2" := mkNode "n2" "n1" []
                 (Some (textMessage "assistant" "Hi there" (Some (Math.of_int 2000))))]>
      ∅)).

(** An export entry without identifiers and without any timestamp. *)
Definition undatedExport : exportConversation :=
  mkExport "" "" "" None None ""
    (<["n1" := mkNode "n1" "" [] (Some (textMessage "user" "Hello World" None))]> ∅).

(** Two nodes whose parents are each other. *)
Definition nodeA : exportNode :=
  mkNode "A" "B" ["B"] (Some (textMessage "assistant" "Pong" None)).
Definition nodeB : exportNode :=
  mkNode "B" "A" ["A"] (Some (textMessage "user" "Ping" None)).

Definition cyclicExport : exportConversation :=
  mkExport "cyc" "" "Cycle" None None "A"
    (<["A" := nodeA]> (<["B" := nodeB]> ∅)).

(** A placeholder node and a node with a message sent at second 1000, no
    [current_node]. *)
Definition bareNode : exportNode := mkNode "a" "" [] None.
Definition datedNode : exportNode :=
  mkNode "b" "" [] (Some (textMessage "user" "Hi" (Some (Math.of_int 1000)))).

Definition mixedExport : exportConversation :=
  mkExport "mix" "" "Mixed" None None ""
    (<["a" := bareNode]> (<["b" := datedNode]> ∅)).

(** One placeholder node and one message that is not text. *)
Definition silentExport : exportConversation :=
  mkExport "s1" "" "Silent" None None ""
    (<["p" := mkNode "p" "" [] None]>
     (<["q" := mkNode "q" "p" []
                 (Some (mkExportMessage "m" (mkAuthor "tool") None None
                          (mkContent "code" [JString "print(1)"])))]> ∅)).

(** A single user message of 300 letters [a]. *)
Definition longText : string := Strings.repeat "a"%char 300.

Definition longExport : exportConversation :=
  mkExport "long" "" "Long" None None ""
    (<["n1" := mkNode "n1" "" [] (Some (textMessage "user" longText None))]> ∅).

(** 2023-11-14 22:13:20 UTC and one second later. *)
Definition clockA : Time := Unix 1700000000 0.
Definition clockB : Time := Unix 1700000001 0.

Definition stored : Conversation :=
  mkConversation "c1" "Old" "old summary" "2020-01-01" "2020-01-02" "c1" []
                 (Unix 1577836800 0) (Unix 1577923200 0).

Definition incomingBlank : Conversation :=
  mkConversation "c1" "New" "new summary" "" "" "c1" [] GoTime.zero GoTime.zero.

Definition other : Conversation :=
  mkConversation "c2" "Other" "other summary" "" "" "c2" []
                 (Unix 1600000000 0) (Unix 1600000000 0).

Definition store0 : gmap string Conversation :=
  <["c1" := stored]> (<["c2" := other]> ∅).

(** A record that is not in [store0], with both instants set. *)
Definition fresh : Conversation :=
  mkConversation "c3" "Fresh" "fresh summary" "2023-11-14" "2023-11-14" "c3"
                 [mkMessage "n1" "user" "Hi" clockA] clockA clockB.

(** The order of [range] over a store that follows the keys. *)
Definition byKey (m : gmap string Conversation) : list Conversation :=
  (map_to_list m).*2.

Definition createHello : Api.createPayload :=
  Api.mkCreate " Notes " "First summary" "" "" "".

Definition patchTitle : Api.patchPayload :=
  Api.mkPatch (Some " Renamed ") None None None.

End Samples.

(** * Notions of the statements *)

Section Notions.

Import GoTime Models Importer Storage.

(** The record [Upsert] stores for [r] when [existing] is what the store
    holds under the identifier of [r]. *)
Definition merged (now : Time) (existing : option Conversation)
    (r : Conversation) : Conversation :=
  mkConversation (ID r) (Title r) (Summary r) (DateStarted r) (DateEnded r)
    (SourceID r) (Messages r)
    (if IsZero (CreatedAt r) then from_option CreatedAt now existing
     else CreatedAt r)
    (if IsZero (UpdatedAt r) then now else UpdatedAt r).

(** [a] does not have to come after [b]. *)
Definition notAfter {A} (lessA : A → A → bool) (a b : A) : Prop :=
  lessA b a = false.

(** The result of [toTime] on the create time of the message of a node. *)
Definition stamp (n : exportNode) : Time * bool :=
  toTime (GetCreateTime (Message n)).

Definition hasStamp (n : exportNode) : bool := (stamp n).2.

(** In the order of the timestamp fall-back, [a] comes first of [a] and [b]
    when [a] has a timestamp and [b] has none, when both have one and that
    of [a] is earlier, and when they have the same timestamp, or none, and
    the id of [a] is the smaller one. *)
Definition comesFirst (a b : exportNode) : Prop :=
  (hasStamp a = true ∧ hasStamp b = false)
  ∨ (hasStamp a = true ∧ hasStamp b = true
     ∧ Before (stamp a).1 (stamp b).1 = true)
  ∨ (hasStamp a = true ∧ hasStamp b = true
     ∧ Equal (stamp a).1 (stamp b).1 = true
     ∧ Strings.lt (nodeID a) (nodeID b) = true)
  ∨ (hasStamp a = false ∧ hasStamp b = false
     ∧ Strings.lt (nodeID a) (nodeID b) = true).

(** The claim of the specification on nodes without timestamp: they are in
    front of the nodes that have one. *)
Definition unstampedFirst (timeline : list exportNode) : Prop :=
  ∀ (i j : nat) a b, timeline !! i = Some a → timeline !! j = Some b →
    hasStamp a = false → hasStamp b = true → (i < j)%nat.

(** The instant [toTime] decodes from a value, before the test for zero. *)
Definition decoded (v : Math.float64) : Time :=
  let '(seconds, frac) := Math.Modf v in
  UTC (Unix (Math.int64 seconds)
            (Math.int64 (Math.mul frac (Math.of_int 1000000000)))).

(** [toTime] treats the value as it treats the nil pointer. *)
Definition absent (v : Math.float64) : Prop := toTime (Some v) = toTime None.

(** The integer a value is, when it is finite and has no fractional part. *)
Definition integral (f : Math.float64) : option Z :=
  match f with
  | S754_zero _ => Some 0
  | S754_finite s m e =>
      if 0 <=? e then Some (if s then - (Z.pos m * 2 ^ e) else Z.pos m * 2 ^ e)
      else if Z.pos m mod 2 ^ (- e) =? 0
      then Some (if s then - (Z.pos m / 2 ^ (- e)) else Z.pos m / 2 ^ (- e))
      else None
  | _ => None
  end.

(** What [convertConversation] makes of the first user text and the first
    assistant text. *)
Definition summaryOf (st : scan) : string :=
  let summary := truncate (firstNonEmpty [firstUser st; firstAssistant st]) 240 in
  if bool_decide (summary = "") then "No summary available" else summary.

(** A node that contributes no text: a placeholder, or a message whose
    content type is neither ["text"] nor ["multimodal_text"]. *)
Definition silent (n : exportNode) : Prop :=
  match Message n with
  | None => True
  | Some m =>
      ContentType (Content m) ≠ "text"
      ∧ ContentType (Content m) ≠ "multimodal_text"
  end.

(** Every record of the store is under its own identifier. *)
Definition keyed (conversations : gmap string Conversation) : Prop :=
  ∀ k c, conversations !! k = Some c → ID c = k.

(** [q] starts with the node under [id], and every node of [q] is followed
    by the node under its parent id. *)
Fixpoint chain (mapping : gmap string exportNode) (id : string)
    (q : list exportNode) : Prop :=
  match q with
  | [] => True
  | n :: q' => mapping !! id = Some n ∧ chain mapping (Parent n) q'
  end.

(** The trimmed text of a content part that is a string with more than
    white space in it. *)
Definition cleanedPart (part : rawPart) : option string :=
  match part with
  | JString text =>
      if bool_decide (Strings.TrimSpace text = "") then None
      else Some (Strings.TrimSpace text)
  | JOther => None
  end.

(** A message as the records hold them: the role is ["user"] or
    ["assistant"] and the text is not empty. *)
Definition turn (m : Models.Message) : Prop :=
  (mAuthor m = "user" ∨ mAuthor m = "assistant") ∧ mContent m ≠ "".

(** The message a node of the timeline gives to the record: the node has to
    have a message with text whose role, in lower case, is ["user"] or
    ["assistant"]. *)
Definition turnOf (ToLower : string → string) (n : exportNode)
    : option Models.Message :=
  match Message n with
  | None => None
  | Some m =>
      let text := extractText (Content m) in
      let role := ToLower (Role (Author m)) in
      if bool_decide (text ≠ "" ∧ (role = "user" ∨ role = "assistant"))
      then Some (mkMessage (nodeID n) role text
                           (timestampOrZero (msgCreateTime m)))
      else None
  end.

(** The text of the first message of a role, or the empty string. *)
Definition firstOf (role : string) (ms : list Models.Message) : string :=
  from_option mContent "" (head (filter (λ m, mAuthor m = role) ms)).

(** The earliest and the latest instant of the loop over the timeline are
    both there or both missing; when they are there, the earliest is not
    after the latest and neither is the zero instant. *)
Definition timed (st : scan) : Prop :=
  hasEarliest st = hasLatest st
  ∧ (hasEarliest st = true →
     After (earliest st) (latest st) = false
     ∧ IsZero (earliest st) = false
     ∧ IsZero (latest st) = false).

(** [t] is the timestamp of the message of a node of [l]. *)
Definition stampOf (l : list exportNode) (t : Time) : Prop :=
  ∃ n m, n ∈ l ∧ Message n = Some m ∧ toTime (msgCreateTime m) = (t, true).

(** A strict weak order, which is what [sort.Slice] asks of its
    comparison. *)
Definition strictWeakOrder {A} (lessA : A → A → bool) : Prop :=
  (∀ a, lessA a a = false)
  ∧ (∀ a b, lessA a b = true → lessA b a = false)
  ∧ (∀ a b c, lessA a b = true → lessA b c = true → lessA a c = true)
  ∧ (∀ a b c, lessA a b = false → lessA b c = false → lessA a c = false).

End Notions.

(** * Properties *)

(** Case analysis on the comparisons of seconds and nanoseconds. *)
Ltac instants :=
  unfold GoTime.Before, GoTime.After, GoTime.Equal in *; simpl in *;
  repeat match goal with
  | H : context [(?x <? ?y)] |- _ => destruct (Z.ltb_spec x y); simpl in H
  | H : context [(?x =? ?y)] |- _ => destruct (Z.eqb_spec x y); simpl in H
  | |- context [(?x <? ?y)] => destruct (Z.ltb_spec x y); simpl
  | |- context [(?x =? ?y)] => destruct (Z.eqb_spec x y); simpl
  end;
  try done; try lia.

(** ** The models of [strings], [math] and [time] on examples *)

Example TrimSpace_ascii : Strings.TrimSpace "  Hello there
 " = "Hello there".
Proof. reflexivity. Qed.

Example TrimSpace_nbsp :
  Strings.TrimSpace (Strings.of_bytes [0xC2; 0xA0; 72; 0xE2; 0x80; 0x83; 32]%N) = "H".
Proof. reflexivity. Qed.

Example HasSuffix_dots :
  Strings.HasSuffix "so..." "..." = true ∧ Strings.HasSuffix ".." "..." = false.
Proof. split; reflexivity. Qed.

Example Format_epoch :
  GoTime.Format (GoTime.Unix 0 0) GoTime.layoutStamp = "19700101000000".
Proof. vm_compute. reflexivity. Qed.

Example Format_leap_day :
  GoTime.Format (GoTime.Unix 1709210096 0) GoTime.layoutDate = "2024-02-29"
  ∧ GoTime.Format (GoTime.Unix 1709210096 0) GoTime.layoutStamp = "20240229123456".
Proof. vm_compute. split; reflexivity. Qed.

Example Format_year_end :
  GoTime.Format (GoTime.Unix 1735689599 0) GoTime.layoutStamp = "20241231235959"
  ∧ GoTime.Format (GoTime.Unix 1735689600 0) GoTime.layoutStamp = "20250101000000"
  ∧ GoTime.Format GoTime.zero GoTime.layoutStamp = "00010101000000".
Proof. vm_compute. repeat split; reflexivity. Qed.

Example Modf_int64 :
  Math.int64 (Math.Modf (Math.of_dyadic 3001 (-1))).1 = 1500
  ∧ Math.int64 (Math.mul (Math.Modf (Math.of_dyadic 3001 (-1))).2
                         (Math.of_int 1000000000)) = 500000000
  ∧ Math.int64 (Math.Modf (Math.of_dyadic (-3001) (-1))).1 = -1500.
Proof. vm_compute. repeat split; reflexivity. Qed.

(** ** Strings and instants *)

Section Orders.

Import GoTime.

Lemma str_lt_leb (a b : string) : Strings.lt a b = negb (String.leb b a).
Proof.
  unfold Strings.lt, String.ltb, String.leb.
  rewrite (String.compare_antisym b a).
  by destruct (String.compare a b).
Qed.

Lemma str_lt_irrefl (a : string) : Strings.lt a a = false.
Proof.
  rewrite str_lt_leb. apply negb_false_iff, Is_true_true.
  apply (reflexivity (R := String.le)).
Qed.

Lemma str_lt_negtrans (a b c : string) :
  Strings.lt a b = false → Strings.lt b c = false → Strings.lt a c = false.
Proof.
  rewrite !str_lt_leb, !negb_false_iff. intros Hba%Is_true_true Hcb%Is_true_true.
  apply Is_true_true. exact (transitivity (R := String.le) Hcb Hba).
Qed.

Lemma str_lt_asym (a b : string) : Strings.lt a b = true → Strings.lt b a = false.
Proof.
  intros Hab. destruct (Strings.lt b a) eqn:Hba; [|done].
  rewrite str_lt_leb, negb_true_iff in Hab, Hba.
  destruct (String.leb_total a b) as [H|H]; congruence.
Qed.

Lemma str_lt_trans (a b c : string) :
  Strings.lt a b = true → Strings.lt b c = true → Strings.lt a c = true.
Proof.
  intros Hab Hbc. destruct (Strings.lt a c) eqn:Hac; [done|].
  apply str_lt_asym in Hab.
  by rewrite (str_lt_negtrans _ _ _ Hab Hac) in Hbc.
Qed.

Lemma str_lt_total (a b : string) :
  Strings.lt a b = false → Strings.lt b a = false → a = b.
Proof.
  rewrite !str_lt_leb, !negb_false_iff. intros. by apply String.leb_antisym.
Qed.

Lemma IsZero_zero (t : Time) : IsZero t = true ↔ t = GoTime.zero.
Proof.
  destruct t as [s n]. unfold IsZero, GoTime.zero. simpl.
  rewrite andb_true_iff, !Z.eqb_eq. split; [intros [-> ->]|intros [= -> ->]]; done.
Qed.

End Orders.

(** ** The merge policy of [Upsert] *)

Section UpsertProperties.

Import GoTime Models Storage.

Context {error : Type} (saveLocked : gmap string Conversation → option error).

Lemma Upsert_stores now r s :
  (Upsert error saveLocked now r s).1 = <[ID r := merged now (s !! ID r) r]> s.
Proof.
  unfold Upsert, merged, UTC, withCreatedAt, withUpdatedAt.
  destruct r as [id ti su ds de so ms ca ua]; simpl.
  destruct (s !! id) as [e|]; simpl;
    destruct (IsZero ca); simpl; destruct (IsZero ua); reflexivity.
Qed.

(** C2. When the store already holds a record under the identifier of the
    incoming record, [Upsert] stores the incoming record with the creation
    instant of the existing record if the incoming one is the zero instant
    and with the incoming creation instant otherwise, and with the incoming
    update instant, or the current time if that one is the zero instant. *)
Theorem Upsert_existing (now : Time) (r existing : Conversation)
    (s : gmap string Conversation) :
  s !! ID r = Some existing →
  ∃ r', (Upsert error saveLocked now r s).1 !! ID r = Some r'
    ∧ CreatedAt r' =
        (if IsZero (CreatedAt r) then CreatedAt existing else CreatedAt r)
    ∧ UpdatedAt r' = (if IsZero (UpdatedAt r) then now else UpdatedAt r)
    ∧ (ID r', Title r', Summary r', DateStarted r', DateEnded r', SourceID r',
       Messages r')
      = (ID r, Title r, Summary r, DateStarted r, DateEnded r, SourceID r,
         Messages r).
Proof.
  intros Hs. exists (merged now (Some existing) r).
  rewrite Upsert_stores, Hs, lookup_insert_eq. done.
Qed.

(** C9. [Upsert] changes the map under the identifier of the incoming record
    only: what the store holds under any other identifier is what it held
    before. *)
Theorem Upsert_frame (now : Time) (r : Conversation)
    (s : gmap string Conversation) (id : string) :
  id ≠ ID r →
  (Upsert error saveLocked now r s).1 !! id = s !! id.
Proof.
  intros Hne. rewrite Upsert_stores. by apply lookup_insert_ne.
Qed.

End UpsertProperties.

Lemma Upsert_existing_witness :
  Samples.store0 !! Models.ID Samples.incomingBlank = Some Samples.stored
  ∧ ∃ r', (Storage.Upsert unit (λ _, None) Samples.clockA Samples.incomingBlank
             Samples.store0).1 !! "c1" = Some r'
    ∧ Models.CreatedAt r' = Models.CreatedAt Samples.stored
    ∧ Models.UpdatedAt r' = Samples.clockA.
Proof.
  split; [reflexivity|].
  destruct (Upsert_existing (λ _ : gmap string Models.Conversation, @None unit)
              Samples.clockA Samples.incomingBlank Samples.stored Samples.store0
              eq_refl) as (r' & Hr' & Hc & Hu & _).
  exists r'. split; [exact Hr'|]. split; [exact Hc|exact Hu].
Defined.

Lemma Upsert_frame_witness :
  "c2" ≠ Models.ID Samples.incomingBlank
  ∧ (Storage.Upsert unit (λ _, None) Samples.clockA Samples.incomingBlank
       Samples.store0).1 !! "c2" = Some Samples.other.
Proof.
  assert (Hne : "c2" ≠ Models.ID Samples.incomingBlank) by (simpl; discriminate).
  split; [exact Hne|].
  rewrite (Upsert_frame (λ _ : gmap string Models.Conversation, @None unit)
             Samples.clockA Samples.incomingBlank Samples.store0 "c2" Hne).
  reflexivity.
Defined.

(** ** The parent walk *)

Local Open Scope nat_scope.

Section Walk.

Import Importer.

Implicit Types (mapping : gmap string exportNode) (seen : gset string).

(** Every turn of the loop that goes on marks a key of the mapping that was
    not marked before, so the loop is over after one turn more than there
    are unmarked keys. *)
Lemma walk_enough fuel mapping seen nodeID path :
  size (dom mapping ∖ seen) < fuel →
  ∃ p, walk fuel mapping seen nodeID path = Some p
       ∧ length p ≤ length path + S (size (dom mapping ∖ seen)).
Proof.
  revert seen nodeID path.
  induction fuel as [|fuel IH]; intros seen nodeID path Hfuel; [lia|].
  simpl. case_bool_decide; [exists path; split; [done|lia]|].
  destruct (mapping !! nodeID) as [node|] eqn:Hnode;
    [|exists path; split; [done|lia]].
  case_bool_decide as Hseen.
  { eexists; split; [done|]. rewrite length_app; simpl; lia. }
  assert (dom mapping ∖ ({[nodeID]} ∪ seen) ⊂ dom mapping ∖ seen) as Hlt.
  { apply elem_of_dom_2 in Hnode.
    assert (nodeID ∈ dom mapping ∖ seen) as Hin by (by apply elem_of_difference).
    split.
    - intros x [Hx Hns]%elem_of_difference. apply elem_of_difference.
      split; [done|]. intros Hxs. apply Hns, elem_of_union. by right.
    - intros Hsub. apply Hsub, elem_of_difference in Hin as [_ Hin].
      apply Hin, elem_of_union. left. by apply elem_of_singleton. }
  apply subset_size in Hlt.
  destruct (IH ({[nodeID]} ∪ seen) (Parent node) (path ++ [node]))
    as (p & Hp & Hlen); [lia|].
  exists p. split; [done|]. rewrite length_app in Hlen; simpl in Hlen. lia.
Qed.

Lemma walk_more fuel more mapping seen nodeID path p :
  walk fuel mapping seen nodeID path = Some p →
  walk (fuel + more) mapping seen nodeID path = Some p.
Proof.
  revert seen nodeID path.
  induction fuel as [|fuel IH]; intros seen nodeID path; simpl; [done|].
  case_bool_decide; [done|].
  destruct (mapping !! nodeID) as [node|]; [|done].
  case_bool_decide; [done|]. apply IH.
Qed.

(** The nodes the walk appends are values of the mapping. *)
Lemma walk_elem_of fuel mapping seen nodeID path p :
  walk fuel mapping seen nodeID path = Some p →
  ∀ n, n ∈ p → n ∈ path ∨ ∃ k, mapping !! k = Some n.
Proof.
  revert seen nodeID path.
  induction fuel as [|fuel IH]; intros seen nodeID path; simpl; [done|].
  case_bool_decide; [intros [= <-]; auto|].
  destruct (mapping !! nodeID) as [node|] eqn:Hnode; [|intros [= <-]; auto].
  assert (∀ n, n ∈ path ++ [node] → n ∈ path ∨ ∃ k, mapping !! k = Some n) as Hin.
  { intros n [?|Hn]%elem_of_app; [by left|].
    apply list_elem_of_singleton in Hn as ->. eauto. }
  case_bool_decide; [intros [= <-]; done|].
  intros Hw n Hn. destruct (IH _ _ _ Hw n Hn) as [?|?]; auto.
Qed.

(** C6. For every conversation, cyclic parent chains included, the parent
    walk from the current-leaf pointer ends: with the fuel [traversalPath]
    gives it, one more than the size of the mapping, the loop returns a
    path; more fuel returns the same path; the path has at most one node
    more than the mapping has entries; and [traversalPath] returns that
    path, reversed, or the timeline of the timestamp fall-back. *)
Theorem walk_terminates (raw : exportConversation) :
  ∃ path,
    walk (S (size (Mapping raw))) (Mapping raw) ∅ (CurrentNode raw) [] = Some path
    ∧ (∀ more, walk (S (size (Mapping raw)) + more) (Mapping raw) ∅
                    (CurrentNode raw) [] = Some path)
    ∧ length path ≤ S (size (Mapping raw))
    ∧ (∀ range,
         traversalPath range raw
         = if bool_decide (CurrentNode raw = "") then timelineByTimestamps range raw
           else if bool_decide (length (reverse path) = 0)
                then timelineByTimestamps range raw
                else reverse path).
Proof.
  destruct (walk_enough (S (size (Mapping raw))) (Mapping raw) ∅
              (CurrentNode raw) []) as (p & Hp & Hlen).
  { rewrite difference_empty_L, size_dom. lia. }
  exists p. split; [done|]. split; [|split].
  - intros more. by apply walk_more.
  - rewrite difference_empty_L, size_dom in Hlen. simpl in Hlen. lia.
  - intros range. unfold traversalPath. by rewrite Hp.
Qed.

End Walk.

(** The parent walk on two nodes that are each other's parent. *)
Example walk_cycle :
  Importer.walk 3 (Importer.Mapping Samples.cyclicExport) ∅ "A" []
  = Some [Samples.nodeA; Samples.nodeB; Samples.nodeA].
Proof. vm_compute. reflexivity. Qed.

(** C7. The walk appends the node before it looks the node id up among the
    ids seen, so on a cycle the node that closes the cycle is in the path
    twice, and its message is in the record twice. *)
Theorem traversalPath_cycle_repeats :
  Importer.traversalPath Importer.rangeByKey Samples.cyclicExport
  = [Samples.nodeA; Samples.nodeB; Samples.nodeA]
  ∧ ¬ NoDup (Importer.nodeID <$>
             Importer.traversalPath Importer.rangeByKey Samples.cyclicExport)
  ∧ (Models.mContent <$>
     from_option Models.Messages []
       (Importer.convertConversation Strings.asciiToLower Importer.rangeByKey
          Samples.clockA Samples.cyclicExport))
    = ["Pong"; "Ping"; "Pong"].
Proof.
  assert (Importer.traversalPath Importer.rangeByKey Samples.cyclicExport
          = [Samples.nodeA; Samples.nodeB; Samples.nodeA]) as Hpath
    by (vm_compute; reflexivity).
  split; [exact Hpath|]. split.
  - rewrite Hpath. simpl. intros Hnd. apply NoDup_cons in Hnd as [Hin _].
    apply Hin. set_solver.
  - vm_compute. reflexivity.
Qed.

(** ** Sorting *)

Section Sort.

Import Importer.

Context {A : Type} (lessA : A → A → bool).

Hypothesis lessA_asym : ∀ a b, lessA a b = true → lessA b a = false.
Hypothesis lessA_negtrans :
  ∀ a b c, lessA a b = false → lessA b c = false → lessA a c = false.

Lemma insert_perm x l : insert lessA x l ≡ₚ x :: l.
Proof.
  induction l as [|y l IH]; simpl; [done|].
  destruct (lessA y x); [|done]. by rewrite IH, Permutation_swap.
Qed.

Lemma sort_Slice_perm l : sort_Slice lessA l ≡ₚ l.
Proof.
  induction l as [|x l IH]; simpl; [done|].
  by rewrite insert_perm, IH.
Qed.

Lemma insert_sorted x l :
  StronglySorted (notAfter lessA) l → StronglySorted (notAfter lessA) (insert lessA x l).
Proof.
  induction 1 as [|y l Hl IH Hy]; simpl.
  { repeat constructor. }
  destruct (lessA y x) eqn:Hyx.
  - constructor; [done|]. rewrite insert_perm. constructor; [|done].
    by apply lessA_asym.
  - constructor; [by constructor|]. constructor; [done|].
    eapply Forall_impl; [exact Hy|]. intros z Hz. unfold notAfter in *. eauto.
Qed.

Lemma sort_Slice_sorted l : StronglySorted (notAfter lessA) (sort_Slice lessA l).
Proof.
  induction l as [|x l IH]; simpl; [constructor|]. by apply insert_sorted.
Qed.

Lemma sorted_positions l i j a b :
  StronglySorted (notAfter lessA) l →
  l !! i = Some a → l !! j = Some b → i < j → notAfter lessA a b.
Proof.
  intros Hl. revert i j. induction Hl as [|x l Hl IH Hx]; intros i j; [done|].
  destruct i as [|i], j as [|j]; simpl; try lia.
  - intros [= ->] Hb _. rewrite Forall_forall in Hx.
    apply Hx. by eapply list_elem_of_lookup_2.
  - intros ???. eapply IH; eauto. lia.
Qed.

(** What is less comes first. *)
Lemma sorted_less_first l i j a b :
  StronglySorted (notAfter lessA) l →
  l !! i = Some a → l !! j = Some b → lessA a b = true → i < j.
Proof.
  intros Hl Ha Hb Hab.
  destruct (decide (i < j)) as [|Hge]; [done|]. exfalso.
  destruct (decide (i = j)) as [->|Hne].
  - rewrite Ha in Hb. injection Hb as ->.
    specialize (lessA_asym _ _ Hab). congruence.
  - assert (notAfter lessA b a) as Hba by (eapply (sorted_positions l j i); eauto; lia).
    unfold notAfter in Hba. congruence.
Qed.

End Sort.

(** ** The order of the timestamp fall-back *)

Section Less.

Import GoTime Importer.

Lemma less_stamp a b :
  less a b =
    match hasStamp a, hasStamp b with
    | true, true =>
        if Equal (stamp a).1 (stamp b).1 then Strings.lt (nodeID a) (nodeID b)
        else Before (stamp a).1 (stamp b).1
    | true, false => true
    | false, true => false
    | false, false => Strings.lt (nodeID a) (nodeID b)
    end.
Proof.
  unfold less, hasStamp, stamp.
  destruct (toTime (GetCreateTime (Message a))) as [ta [|]],
           (toTime (GetCreateTime (Message b))) as [tb [|]]; reflexivity.
Qed.

Lemma less_irrefl a : less a a = false.
Proof.
  rewrite less_stamp. destruct (hasStamp a); [|apply str_lt_irrefl].
  destruct (stamp a).1 as [s n]. unfold Equal; simpl.
  rewrite !Z.eqb_refl; simpl. apply str_lt_irrefl.
Qed.

Lemma less_asym a b : less a b = true → less b a = false.
Proof.
  rewrite !less_stamp.
  destruct (hasStamp a), (hasStamp b); try done; try apply str_lt_asym.
  destruct (stamp a).1 as [sa na], (stamp b).1 as [sb nb].
  intros H; instants; subst; by apply str_lt_asym.
Qed.

Lemma less_negtrans a b c :
  less a b = false → less b c = false → less a c = false.
Proof.
  rewrite !less_stamp.
  destruct (hasStamp a), (hasStamp b), (hasStamp c);
    try done; try apply str_lt_negtrans.
  destruct (stamp a).1 as [sa na], (stamp b).1 as [sb nb],
           (stamp c).1 as [sc nc].
  intros H1 H2; instants; subst; eauto using str_lt_negtrans.
Qed.

(** Two nodes neither of which is less than the other have the same id. *)
Lemma less_total a b :
  less a b = false → less b a = false → nodeID a = nodeID b.
Proof.
  rewrite !less_stamp.
  destruct (hasStamp a), (hasStamp b); try done; try apply str_lt_total.
  destruct (stamp a).1 as [sa na], (stamp b).1 as [sb nb].
  intros H1 H2; instants; subst; by apply str_lt_total.
Qed.

End Less.

Section Timeline.

Import GoTime Importer.

Lemma Equal_not_Before t u : Equal t u = true → Before t u = false.
Proof. destruct t, u. intros H. instants. Qed.

Lemma comesFirst_less a b : comesFirst a b ↔ less a b = true.
Proof.
  unfold comesFirst. rewrite less_stamp.
  destruct (hasStamp a), (hasStamp b);
    [destruct (Equal _ _) eqn:He; [rewrite (Equal_not_Before _ _ He)|]|..];
    intuition congruence.
Qed.

Lemma NoDup_fmap_eq {A B} (f : A → B) (l : list A) x y :
  NoDup (f <$> l) → x ∈ l → y ∈ l → f x = f y → x = y.
Proof.
  intros Hnd [i Hi]%list_elem_of_lookup_1 [j Hj]%list_elem_of_lookup_1 Hf.
  assert (i = j) as ->; [|congruence].
  eapply NoDup_lookup; [exact Hnd| |]; rewrite list_lookup_fmap.
  - by rewrite Hi.
  - rewrite Hj. simpl. by rewrite Hf.
Qed.

(** The order in which [range] visits the values of a map in a run: any
    order, every entry once. *)
Variable range : gmap string exportNode → list exportNode.
Hypothesis range_values : ∀ m, range m ≡ₚ (map_to_list m).*2.

Lemma timeline_perm raw :
  timelineByTimestamps range raw ≡ₚ (map_to_list (Mapping raw)).*2.
Proof. unfold timelineByTimestamps. by rewrite sort_Slice_perm. Qed.

Lemma timeline_sorted raw :
  StronglySorted (notAfter less) (timelineByTimestamps range raw).
Proof. apply sort_Slice_sorted; [apply less_asym|apply less_negtrans]. Qed.

Lemma timeline_length raw :
  length (timelineByTimestamps range raw) = size (Mapping raw).
Proof. by rewrite timeline_perm, length_fmap, length_map_to_list. Qed.

Lemma timeline_elem_of raw n :
  n ∈ timelineByTimestamps range raw ↔ ∃ k, Mapping raw !! k = Some n.
Proof.
  rewrite timeline_perm, list_elem_of_fmap. split.
  - intros ([k n'] & -> & Hk%elem_of_map_to_list). eauto.
  - intros [k Hk]. exists (k, n). by rewrite elem_of_map_to_list.
Qed.

(** C4, as the code has it. The timeline of the timestamp fall-back holds
    the nodes of the mapping, each once. Nodes that have a message
    timestamp are in front of the nodes that lack one (not behind them);
    among nodes with a timestamp the earlier one is in front; nodes with
    equal timestamps, and nodes without timestamp, are in ascending order
    of their ids. When the ids of the nodes are pairwise distinct, any two
    nodes are ordered, and the timeline is the same whatever order [range]
    and the sort happen to take. *)
Theorem timelineByTimestamps_order (raw : exportConversation) :
  timelineByTimestamps range raw ≡ₚ (map_to_list (Mapping raw)).*2
  ∧ (∀ i j a b,
       timelineByTimestamps range raw !! i = Some a →
       timelineByTimestamps range raw !! j = Some b →
       comesFirst a b → i < j)
  ∧ (NoDup (nodeID <$> (map_to_list (Mapping raw)).*2) →
       (∀ i j a b,
          timelineByTimestamps range raw !! i = Some a →
          timelineByTimestamps range raw !! j = Some b →
          i < j → comesFirst a b)
       ∧ ∀ timeline',
           timeline' ≡ₚ (map_to_list (Mapping raw)).*2 →
           StronglySorted (notAfter less) timeline' →
           timeline' = timelineByTimestamps range raw).
Proof.
  split; [apply timeline_perm|]. split.
  - intros i j a b Ha Hb Hab%comesFirst_less.
    eapply (sorted_less_first less); eauto using less_asym, timeline_sorted.
  - intros Hnd. rewrite <-(timeline_perm raw) in Hnd. split.
    + intros i j a b Ha Hb Hij. apply comesFirst_less.
      destruct (less a b) eqn:Hab; [done|]. exfalso.
      assert (less b a = false) as Hba.
      { eapply (sorted_positions less); eauto using timeline_sorted. }
      assert (a = b) as <-.
      { eapply (NoDup_fmap_eq nodeID); eauto using list_elem_of_lookup_2.
        by apply less_total. }
      assert (i = j); [|lia].
      eapply NoDup_lookup; [eapply NoDup_fmap_1; exact Hnd|exact Ha|exact Hb].
    + intros timeline' Hperm Hsorted.
      apply (StronglySorted_unique_strong (notAfter less));
        [|done|apply timeline_sorted|by rewrite timeline_perm].
      intros x y Hx Hy Hxy Hyx. rewrite Hperm, <-(timeline_perm raw) in Hx.
      eapply (NoDup_fmap_eq nodeID); eauto. by apply less_total.
Qed.

(** C10. A node without message payload has no create time to read:
    [GetCreateTime] on the nil message gives the nil pointer and [toTime]
    gives "no timestamp". The timeline of the timestamp fall-back is
    defined all the same: it has as many nodes as the mapping and the node
    is one of them. The comparison treats the node as one that lacks a
    timestamp, and so does the timeline: wherever the node stands, every
    node that has a timestamp stands in front of it, and so does every node
    without timestamp whose id is smaller, while the nodes without
    timestamp whose id is greater stand behind it. *)
Theorem bare_node_ordered (raw : exportConversation) (k : string)
    (n : exportNode) :
  Mapping raw !! k = Some n →
  Message n = None →
  toTime (GetCreateTime (Message n)) = (GoTime.zero, false)
  ∧ n ∈ timelineByTimestamps range raw
  ∧ length (timelineByTimestamps range raw) = size (Mapping raw)
  ∧ (∀ m, less n m = (if hasStamp m then false
                       else Strings.lt (nodeID n) (nodeID m))
          ∧ less m n = (if hasStamp m then true
                        else Strings.lt (nodeID m) (nodeID n)))
  ∧ ∀ i j m,
      timelineByTimestamps range raw !! i = Some n →
      timelineByTimestamps range raw !! j = Some m →
      (hasStamp m = true → j < i)
      ∧ (hasStamp m = false →
         Strings.lt (nodeID m) (nodeID n) = true → j < i)
      ∧ (hasStamp m = false →
         Strings.lt (nodeID n) (nodeID m) = true → i < j).
Proof.
  intros Hk Hn.
  assert (hasStamp n = false) as Hs by (unfold hasStamp, stamp; by rewrite Hn).
  split; [by rewrite Hn|]. split; [apply timeline_elem_of; eauto|].
  split; [by apply timeline_length|].
  assert (∀ m, less n m = (if hasStamp m then false
                           else Strings.lt (nodeID n) (nodeID m))
               ∧ less m n = (if hasStamp m then true
                             else Strings.lt (nodeID m) (nodeID n))) as Hless.
  { intros m. rewrite !less_stamp, Hs. by destruct (hasStamp m). }
  split; [done|].
  intros i j m Hi Hj.
  pose proof (timeline_sorted raw) as Hsorted.
  destruct (Hless m) as [Hnm Hmn].
  split; [|split].
  - intros Hm. rewrite Hm in Hmn.
    eapply (sorted_less_first less); eauto using less_asym.
  - intros Hm Hlt. rewrite Hm, Hlt in Hmn.
    eapply (sorted_less_first less); eauto using less_asym.
  - intros Hm Hlt. rewrite Hm, Hlt in Hnm.
    eapply (sorted_less_first less); eauto using less_asym.
Qed.

End Timeline.

Lemma rangeByKey_values (m : gmap string Importer.exportNode) :
  Importer.rangeByKey m ≡ₚ (map_to_list m).*2.
Proof. reflexivity. Qed.

(** The timeline of a placeholder node ["a"] and a node ["b"] with a message
    sent at second 1000. *)
Example timeline_mixed :
  Importer.timelineByTimestamps Importer.rangeByKey Samples.mixedExport
  = [Samples.datedNode; Samples.bareNode].
Proof. vm_compute. reflexivity. Qed.

(** C4, as the specification has it, fails: the node without timestamp is
    behind the node that has one. *)
Lemma unstampedFirst_fails :
  ¬ unstampedFirst
      (Importer.timelineByTimestamps Importer.rangeByKey Samples.mixedExport).
Proof.
  rewrite timeline_mixed. intros H.
  specialize (H 1 0 Samples.bareNode Samples.datedNode eq_refl eq_refl
                eq_refl eq_refl). lia.
Qed.

Lemma timelineByTimestamps_order_witness :
  (∀ m, Importer.rangeByKey m ≡ₚ (map_to_list m).*2)
  ∧ ∀ i j a b,
      Importer.timelineByTimestamps Importer.rangeByKey Samples.mixedExport !! i
        = Some a →
      Importer.timelineByTimestamps Importer.rangeByKey Samples.mixedExport !! j
        = Some b →
      comesFirst a b → i < j.
Proof.
  split; [exact rangeByKey_values|].
  exact (proj1 (proj2 (timelineByTimestamps_order Importer.rangeByKey
                         rangeByKey_values Samples.mixedExport))).
Defined.

Lemma bare_node_ordered_witness :
  Importer.Mapping Samples.mixedExport !! "a" = Some Samples.bareNode
  ∧ Importer.Message Samples.bareNode = None
  ∧ Samples.bareNode
      ∈ Importer.timelineByTimestamps Importer.rangeByKey Samples.mixedExport
  ∧ Importer.less Samples.datedNode Samples.bareNode = true
  ∧ ∀ i j,
      Importer.timelineByTimestamps Importer.rangeByKey Samples.mixedExport !! i
        = Some Samples.bareNode →
      Importer.timelineByTimestamps Importer.rangeByKey Samples.mixedExport !! j
        = Some Samples.datedNode →
      j < i.
Proof.
  assert (Importer.Mapping Samples.mixedExport !! "a" = Some Samples.bareNode)
    as Hk by reflexivity.
  split; [exact Hk|]. split; [reflexivity|].
  destruct (bare_node_ordered Importer.rangeByKey rangeByKey_values
              Samples.mixedExport "a" Samples.bareNode Hk eq_refl)
    as (_ & Hin & _ & Hless & Hpos).
  split; [exact Hin|]. split; [exact (proj2 (Hless Samples.datedNode))|].
  intros i j Hi Hj.
  exact (proj1 (Hpos i j Samples.datedNode Hi Hj) eq_refl).
Defined.

(** ** Timestamp parsing *)

Section ToTime.

Import GoTime Importer.
Local Open Scope Z_scope.

Lemma toTime_decoded v :
  toTime (Some v)
  = if IsZero (decoded v) then (GoTime.zero, false) else (decoded v, true).
Proof. unfold toTime, decoded. by destruct (Math.Modf v). Qed.

Lemma absent_decoded v : absent v ↔ decoded v = GoTime.zero.
Proof.
  unfold absent. rewrite toTime_decoded. simpl.
  destruct (IsZero (decoded v)) eqn:Hz.
  - apply IsZero_zero in Hz. done.
  - split; [done|]. intros Hd. rewrite Hd in Hz. done.
Qed.

Lemma int64_range f :
  - 2 ^ 63 <= Math.int64 f < 2 ^ 63.
Proof.
  unfold Math.int64, Math.minInt64. destruct f as [| | |s m e]; try done.
  destruct (_ && _) eqn:Hr; [|done].
  apply andb_true_iff in Hr as [?%Z.leb_le ?%Z.ltb_lt]. done.
Qed.

(** Seconds since the epoch, without nanoseconds, are the zero instant for
    one [int64] only. *)
Lemma Unix_zero z :
  - 2 ^ 63 <= z < 2 ^ 63 →
  Unix z 0 = GoTime.zero ↔ z = -62135596800.
Proof.
  intros Hz. unfold Unix, GoTime.zero, wrap64, unixToInternal. simpl.
  change (2 ^ 63) with 9223372036854775808 in *.
  change (2 ^ 64) with 18446744073709551616.
  split; [|intros ->; reflexivity].
  intros [= H].
  destruct (Z.lt_ge_cases (z + 62135596800 + 9223372036854775808)
                          18446744073709551616).
  - rewrite Z.mod_small in H by lia. lia.
  - replace (z + 62135596800 + 9223372036854775808)
      with (z + 62135596800 + 9223372036854775808 - 18446744073709551616
            + 1 * 18446744073709551616) in H by lia.
    rewrite Z.mod_add, Z.mod_small in H by lia. lia.
Qed.

Lemma mul_zero s :
  Math.int64 (Math.mul (S754_zero s) (Math.of_int 1000000000)) = 0.
Proof. reflexivity. Qed.

(** The seconds [toTime] reads from a value without fractional part. *)
Lemma decoded_integral v z :
  integral v = Some z →
  decoded v = Unix (if (- 2 ^ 63 <=? z) && (z <? 2 ^ 63) then z
                    else - 2 ^ 63) 0.
Proof.
  destruct v as [s| | |s m e]; try done; unfold integral, decoded.
  - intros [= <-]. reflexivity.
  - unfold Math.Modf. destruct (0 <=? e) eqn:He.
    + intros [= <-]. rewrite (mul_zero s).
      unfold Math.int64, Math.minInt64, UTC. rewrite He. done.
    + destruct (Z.eqb_spec (Z.pos m mod 2 ^ (- e)) 0) as [Hm|]; [|done].
      intros [= <-]. rewrite Hm.
      apply Z.leb_gt in He.
      assert (0 < 2 ^ (- e)) as Hd by (apply Z.pow_pos_nonneg; lia).
      assert (0 < Z.pos m / 2 ^ (- e)) as Hq.
      { apply Z.div_str_pos. split; [done|].
        apply Z.mod_divide in Hm as [k Hk]; [|lia].
        assert (0 < Z.pos m) by lia.
        generalize dependent (2 ^ (- e)). intros d Hk Hd.
        assert (0 < k) by nia. nia. }
      destruct (Z.pos m / 2 ^ (- e)) as [|q|q] eqn:Hdiv; try lia.
      rewrite (mul_zero s).
      unfold Math.int64, Math.minInt64, UTC. simpl (0 <=? 0).
      cbv iota. rewrite Z.pow_0_r, Z.mul_1_r. done.
Qed.

(** C8, as the code has it. [toTime] drops a value exactly when the instant
    decoded from it is the zero value of [time.Time], which is January 1 of
    year 1 and not the epoch: among the values without fractional part that
    is -62135596800 alone. The epoch timestamp [0.0] (and [-0.0]) decodes
    to 1970-01-01 00:00:00 UTC and is kept. *)
Theorem toTime_absent (v : Math.float64) (z : Z) :
  integral v = Some z →
  (absent v ↔ decoded v = GoTime.zero)
  ∧ (absent v ↔ z = -62135596800)
  ∧ (z = 0 → toTime (Some v) = (Unix 0 0, true)).
Proof.
  intros Hv. split; [apply absent_decoded|].
  rewrite absent_decoded, (decoded_integral v z Hv).
  destruct ((- 2 ^ 63 <=? z) && (z <? 2 ^ 63)) eqn:Hr.
  - apply andb_true_iff in Hr as [?%Z.leb_le ?%Z.ltb_lt].
    split; [by apply Unix_zero|].
    intros ->. rewrite toTime_decoded, (decoded_integral v 0 Hv). reflexivity.
  - split.
    + rewrite Unix_zero by done. split; [done|]. intros ->. done.
    + intros ->. done.
Qed.

End ToTime.

(** C8, as the specification has it, fails: the epoch timestamp [0.0] is not
    dropped. *)
Lemma epoch_not_absent : ¬ absent (Math.of_int 0).
Proof. unfold absent. vm_compute. discriminate. Qed.

Lemma toTime_absent_witness :
  integral (Math.of_int (-62135596800)) = Some (-62135596800)%Z
  ∧ absent (Math.of_int (-62135596800)).
Proof.
  assert (integral (Math.of_int (-62135596800)) = Some (-62135596800)%Z) as Hv
    by (vm_compute; reflexivity).
  split; [exact Hv|].
  exact (proj2 (proj1 (proj2 (toTime_absent _ _ Hv))) eq_refl).
Defined.

(** ** Lengths of strings *)

Section StringLengths.

Import Strings.

Lemma length_append (s t : string) :
  String.length (s +:+ t) = String.length s + String.length t.
Proof. induction s as [|c s IH]; simpl; [done|]. by rewrite IH. Qed.

Lemma length_slice_to (s : string) (n : nat) : len (slice_to s n) ≤ n.
Proof.
  unfold len, slice_to. revert s.
  induction n as [|n IH]; intros [|c s]; simpl; try lia.
  specialize (IH s). lia.
Qed.

Lemma substring_all (t : string) : String.substring 0 (String.length t) t = t.
Proof. induction t as [|c t IH]; simpl; [done|]. by rewrite IH. Qed.

Lemma substring_append (s t : string) :
  String.substring (String.length s) (String.length t) (s +:+ t) = t.
Proof. induction s as [|c s IH]; simpl; [apply substring_all|done]. Qed.

Lemma HasSuffix_append (s t : string) : HasSuffix (s +:+ t) t = true.
Proof.
  unfold HasSuffix, slice_from, len. rewrite length_append.
  apply andb_true_iff. split; [apply Nat.leb_le; lia|].
  apply bool_decide_eq_true.
  replace (String.length s + String.length t - String.length t)
    with (String.length s) by lia.
  replace (String.length s + String.length t - String.length s)
    with (String.length t) by lia.
  apply substring_append.
Qed.

Lemma HasSuffix_length (s t : string) : HasSuffix s t = true → len t ≤ len s.
Proof. unfold HasSuffix. intros [?%Nat.leb_le _]%andb_true_iff. done. Qed.

Lemma length_string_of_list (l : list ascii) :
  String.length (string_of_list_ascii l) = length l.
Proof. induction l as [|c l IH]; simpl; [done|]. by rewrite IH. Qed.

Lemma length_list_of_string (s : string) :
  length (list_ascii_of_string s) = String.length s.
Proof. induction s as [|c s IH]; simpl; [done|]. by rewrite IH. Qed.

Lemma length_of_bytes (b : list N) : String.length (of_bytes b) = length b.
Proof. unfold of_bytes. by rewrite length_string_of_list, length_fmap. Qed.

Lemma length_bytes (s : string) : length (bytes s) = String.length s.
Proof. unfold bytes. by rewrite length_fmap, length_list_of_string. Qed.

Lemma length_trimWith width fuel (b : list N) :
  length (trimWith width fuel b) ≤ length b.
Proof.
  revert b. induction fuel as [|fuel IH]; intros b; simpl; [done|].
  destruct (width b) as [|n]; [done|].
  etrans; [apply IH|]. rewrite length_drop. lia.
Qed.

(** Trimming returns a piece of the string. *)
Lemma length_TrimSpace (s : string) : len (TrimSpace s) ≤ len s.
Proof.
  unfold len, TrimSpace, TrimRightSpace, TrimLeftSpace.
  rewrite length_of_bytes, length_reverse.
  etrans; [apply length_trimWith|]. rewrite length_reverse.
  etrans; [apply length_trimWith|]. by rewrite length_bytes.
Qed.

Lemma length_repeat c n : String.length (Strings.repeat c n) = n.
Proof. induction n as [|n IH]; simpl; [done|]. by rewrite IH. Qed.

End StringLengths.

(** ** The record of a conversation *)

Section Truncate.

Import Importer.

Lemma truncate_length text limit :
  Strings.len (truncate text limit) ≤ limit + 3.
Proof.
  unfold truncate. destruct (Strings.len text <=? limit) eqn:Hl.
  { apply Nat.leb_le in Hl. lia. }
  pose proof (length_TrimSpace (Strings.slice_to text limit)).
  pose proof (length_slice_to text limit).
  destruct (negb _); [|lia].
  unfold Strings.len in *. rewrite length_append. simpl. lia.
Qed.

Lemma truncate_short text limit :
  Strings.len text ≤ limit → truncate text limit = text.
Proof.
  intros Hl%Nat.leb_le. unfold truncate. by rewrite Hl.
Qed.

Lemma truncate_long text limit :
  limit < Strings.len text →
  Strings.HasSuffix (truncate text limit) "..." = true.
Proof.
  intros Hl%Nat.leb_gt. unfold truncate. rewrite Hl.
  destruct (Strings.HasSuffix (Strings.TrimSpace _) "...") eqn:Hs; simpl;
    [done|apply HasSuffix_append].
Qed.

End Truncate.

Section Convert.

Import GoTime Models Importer.

Variable ToLower : string → string.
Variable range : gmap string exportNode → list exportNode.
Hypothesis range_values : ∀ m, range m ≡ₚ (map_to_list m).*2.

Lemma traversalPath_elem_of raw n :
  n ∈ traversalPath range raw → ∃ k, Mapping raw !! k = Some n.
Proof.
  unfold traversalPath. case_bool_decide; [by apply timeline_elem_of|].
  case_bool_decide; [by apply timeline_elem_of|].
  rewrite elem_of_reverse.
  destruct (walk _ _ _ _ _) as [p|] eqn:Hw; simpl; [|by intros ?%elem_of_nil].
  intros Hn. destruct (walk_elem_of _ _ _ _ _ _ Hw n Hn) as [?%elem_of_nil|?]; done.
Qed.

Lemma traversalPath_nonempty raw :
  size (Mapping raw) ≠ 0 → length (traversalPath range raw) ≠ 0.
Proof.
  intros Hm. unfold traversalPath.
  case_bool_decide; [by rewrite timeline_length|].
  case_bool_decide; [by rewrite timeline_length|done].
Qed.

(** The record, when there is one, in terms of the state of the loop over
    the timeline. *)
Lemma convertConversation_Some now raw c :
  convertConversation ToLower range now raw = Some c →
  Summary c = summaryOf (foldl (visit ToLower) scan0 (traversalPath range raw))
  ∧ Messages c = messages (foldl (visit ToLower) scan0 (traversalPath range raw))
  ∧ SourceID c = ID c.
Proof.
  unfold convertConversation, summaryOf.
  case_bool_decide; [done|]. case_bool_decide; [done|]. cbv zeta.
  repeat match goal with
  | |- context [match ?x with (_, _) => _ end] => destruct x
  end.
  intros Hc. apply (inj Some) in Hc. subst c.
  cbn [Summary Messages SourceID ID]. repeat split; reflexivity.
Qed.

Lemma convertConversation_None now raw :
  convertConversation ToLower range now raw = None ↔ Mapping raw = ∅.
Proof.
  rewrite <-map_size_empty_iff. unfold convertConversation.
  case_bool_decide as Hm; [done|].
  pose proof (traversalPath_nonempty raw Hm).
  rewrite bool_decide_false by done.
  split; [|done]. cbv zeta.
  repeat match goal with
  | |- context [match ?x with (_, _) => _ end] => destruct x
  end.
  done.
Qed.

Lemma trackTime_texts st value :
  firstUser (trackTime st value) = firstUser st
  ∧ firstAssistant (trackTime st value) = firstAssistant st
  ∧ messages (trackTime st value) = messages st.
Proof.
  unfold trackTime. destruct (toTime value) as [ts [|]]; [|done].
  repeat case_match; done.
Qed.

Lemma extractText_silent m :
  ContentType (Content m) ≠ "text" →
  ContentType (Content m) ≠ "multimodal_text" →
  extractText (Content m) = "".
Proof. intros. unfold extractText. by rewrite !bool_decide_false. Qed.

Lemma visit_silent st n :
  silent n →
  firstUser (visit ToLower st n) = firstUser st
  ∧ firstAssistant (visit ToLower st n) = firstAssistant st
  ∧ messages (visit ToLower st n) = messages st.
Proof.
  unfold silent, visit. destruct (Message n) as [m|]; [|done].
  intros [? ?]. rewrite extractText_silent by done. simpl.
  apply trackTime_texts.
Qed.

Lemma scan_silent timeline st :
  Forall silent timeline →
  firstUser (foldl (visit ToLower) st timeline) = firstUser st
  ∧ firstAssistant (foldl (visit ToLower) st timeline) = firstAssistant st
  ∧ messages (foldl (visit ToLower) st timeline) = messages st.
Proof.
  intros Hs. revert st. induction Hs as [|n l Hn _ IH]; intros st; simpl; [done|].
  destruct (IH (visit ToLower st n)) as (-> & -> & ->). by apply visit_silent.
Qed.

(** C5, as the code has it. A conversation is left out of the records when
    its mapping is empty, and only then. A conversation with a mapping that
    is not empty and holds only nodes without message, or with messages of
    other content types than ["text"] and ["multimodal_text"], gets a
    record: one without messages, with the placeholder summary. *)
Theorem silent_conversation_kept (now : Time) (raw : exportConversation) :
  (convertConversation ToLower range now raw = None ↔ Mapping raw = ∅)
  ∧ (Mapping raw ≠ ∅ →
     (∀ k n, Mapping raw !! k = Some n → silent n) →
     ∃ c, convertConversation ToLower range now raw = Some c
          ∧ Messages c = []
          ∧ Summary c = "No summary available").
Proof.
  split; [apply convertConversation_None|].
  intros Hm Hsilent.
  destruct (convertConversation ToLower range now raw) as [c|] eqn:Hc;
    [|by apply convertConversation_None in Hc].
  exists c. split; [done|].
  apply convertConversation_Some in Hc as (Hsum & Hmsg & _).
  assert (Forall silent (traversalPath range raw)) as Hall.
  { apply Forall_forall. intros n [k Hk]%traversalPath_elem_of. eauto. }
  destruct (scan_silent _ scan0 Hall) as (Hu & Ha & Hms).
  split; [by rewrite Hmsg, Hms|].
  rewrite Hsum. unfold summaryOf. rewrite Hu, Ha. reflexivity.
Qed.

Lemma TrimSpace_longText : Strings.TrimSpace Samples.longText = Samples.longText.
Proof. vm_compute. reflexivity. Qed.

(** C3, as the code has it. [truncate] cuts the text after 240 bytes and
    appends the ellipsis to the piece, so the summary of a first user text
    of 300 letters [a] has 243 bytes: the first 240 bytes of the text and
    ["..."]. Every summary has at most 243 bytes, and the summary of a text
    of more than 240 bytes ends with ["..."]. *)
Theorem summary_truncation (now : Time) (raw : exportConversation)
    (c : Conversation) :
  convertConversation ToLower range now raw = Some c →
  (firstUser (foldl (visit ToLower) scan0 (traversalPath range raw))
     = Samples.longText →
   Summary c = Strings.repeat "a"%char 240 +:+ "..."
   ∧ Strings.len (Summary c) = 243)
  ∧ Strings.len (Summary c) ≤ 243
  ∧ (240 < Strings.len
             (firstNonEmpty
                [firstUser (foldl (visit ToLower) scan0 (traversalPath range raw));
                 firstAssistant
                   (foldl (visit ToLower) scan0 (traversalPath range raw))]) →
     Strings.HasSuffix (Summary c) "..." = true).
Proof.
  intros (-> & _)%convertConversation_Some.
  set (st := foldl _ _ _). unfold summaryOf.
  split; [|split].
  - intros ->. unfold firstNonEmpty. rewrite TrimSpace_longText.
    rewrite (bool_decide_true (Samples.longText ≠ ""))
      by (vm_compute; discriminate).
    vm_compute. done.
  - case_bool_decide; [vm_compute; lia|]. apply (truncate_length _ 240).
  - intros Hlong%truncate_long. case_bool_decide as He; [|done].
    rewrite He in Hlong. done.
Qed.

(** The identifier of a record is not empty. *)
Lemma newDeterministicID_nonempty seed t : newDeterministicID ToLower seed t ≠ "".
Proof.
  unfold newDeterministicID. intros H%(f_equal String.length).
  rewrite !length_append in H. simpl in H. lia.
Qed.

Lemma convertConversation_ID now raw c :
  convertConversation ToLower range now raw = Some c → ID c ≠ "".
Proof.
  unfold convertConversation.
  case_bool_decide; [done|]. case_bool_decide; [done|]. cbv zeta.
  repeat match goal with
  | |- context [match ?x with (_, _) => _ end] => destruct x
  end.
  intros Hc. apply (inj Some) in Hc. subst c. cbn [ID].
  repeat case_bool_decide; auto using newDeterministicID_nonempty.
Qed.

(** The clock is read only when no instant can be derived: with a message
    timestamp, or with the create time of the conversation, the record does
    not depend on the clock. *)
Lemma convertConversation_dated now now' raw :
  hasEarliest (foldl (visit ToLower) scan0 (traversalPath range raw)) = true
  ∨ (toTime (CreateTime raw)).2 = true →
  convertConversation ToLower range now raw
  = convertConversation ToLower range now' raw.
Proof.
  intros Hdated. unfold convertConversation.
  case_bool_decide; [done|]. case_bool_decide; [done|]. cbv zeta.
  set (st := foldl (visit ToLower) scan0 (traversalPath range raw)) in *.
  destruct (hasEarliest st) eqn:He; cbn [negb].
  - reflexivity.
  - destruct Hdated as [|Hc]; [done|].
    destruct (toTime (CreateTime raw)) as [ts ok]. simpl in Hc. subst ok.
    reflexivity.
Qed.

End Convert.

(** String parts are trimmed and joined by a blank line; other parts are
    skipped. *)
Example collectStringParts_joins :
  Importer.collectStringParts
    [Importer.JString " one "; Importer.JOther; Importer.JString "";
     Importer.JString "two"]
  = Strings.of_bytes [111; 110; 101; 10; 10; 116; 119; 111]%N.
Proof. vm_compute. reflexivity. Qed.

(** The example of the specification. *)
Example convert_hello :
  Importer.convertConversation Strings.asciiToLower Importer.rangeByKey
    Samples.clockA Samples.helloExport
  = Some (Models.mkConversation "c1" "Hello" "Hello" "1970-01-01" "1970-01-01"
            "c1"
            [Models.mkMessage "n1" "user" "Hello" (GoTime.Unix 1000 0);
             Models.mkMessage "n2" "assistant" "Hi there" (GoTime.Unix 2000 0)]
            (GoTime.Unix 1000 0) (GoTime.Unix 2000 0)).
Proof. vm_compute. reflexivity. Qed.

Lemma silentExport_silent k n :
  Importer.Mapping Samples.silentExport !! k = Some n → silent n.
Proof.
  intros Hk.
  destruct (decide (k = "p")) as [->|]; [by injection Hk as <-|].
  destruct (decide (k = "q")) as [->|];
    [injection Hk as <-; split; discriminate|].
  unfold Samples.silentExport in Hk. simpl in Hk.
  by rewrite !lookup_insert_ne, lookup_empty in Hk.
Qed.

(** C5, as the specification has it, fails: a conversation of a placeholder
    node and a message that is not text gets a record. *)
Lemma silent_conversation_not_excluded :
  ¬ (∀ raw,
       (∀ k n, Importer.Mapping raw !! k = Some n → silent n) →
       Importer.convertConversation Strings.asciiToLower Importer.rangeByKey
         Samples.clockA raw = None).
Proof.
  intros H. specialize (H Samples.silentExport silentExport_silent).
  vm_compute in H. discriminate H.
Qed.

Example convert_silent :
  Importer.convertConversation Strings.asciiToLower Importer.rangeByKey
    Samples.clockA Samples.silentExport
  = Some (Models.mkConversation "s1" "Silent" "No summary available" "" ""
            "s1" [] Samples.clockA Samples.clockA).
Proof. vm_compute. reflexivity. Qed.

Lemma silent_conversation_kept_witness :
  Importer.Mapping Samples.silentExport ≠ ∅
  ∧ ∃ c, Importer.convertConversation Strings.asciiToLower Importer.rangeByKey
           Samples.clockA Samples.silentExport = Some c
         ∧ Models.Messages c = []
         ∧ Models.Summary c = "No summary available".
Proof.
  assert (Importer.Mapping Samples.silentExport ≠ ∅) as Hm.
  { intros H. apply (f_equal (λ m, m !! "p")) in H. discriminate H. }
  split; [exact Hm|].
  exact (proj2 (silent_conversation_kept Strings.asciiToLower Importer.rangeByKey
                  rangeByKey_values Samples.clockA Samples.silentExport)
               Hm silentExport_silent).
Defined.

Example convert_long :
  Importer.convertConversation Strings.asciiToLower Importer.rangeByKey
    Samples.clockA Samples.longExport
  = Some (Models.mkConversation "long" "Long"
            (Strings.repeat "a"%char 240 +:+ "...") "" "" "long"
            [Models.mkMessage "n1" "user" Samples.longText GoTime.zero]
            Samples.clockA Samples.clockA).
Proof. vm_compute. reflexivity. Qed.

(** C3, as the specification has it, fails: the summary of a user text of
    300 letters [a] has 243 bytes, not 240, and byte 238 is an [a], not the
    start of the ellipsis. *)
Lemma summary_not_240 :
  ¬ (∀ c,
       Importer.convertConversation Strings.asciiToLower Importer.rangeByKey
         Samples.clockA Samples.longExport = Some c →
       Strings.len (Models.Summary c) = 240).
Proof.
  intros H. specialize (H _ convert_long). vm_compute in H. discriminate H.
Qed.

Lemma summary_truncation_witness :
  Importer.firstUser
    (foldl (Importer.visit Strings.asciiToLower) Importer.scan0
       (Importer.traversalPath Importer.rangeByKey Samples.longExport))
  = Samples.longText
  ∧ ∃ c, Importer.convertConversation Strings.asciiToLower Importer.rangeByKey
           Samples.clockA Samples.longExport = Some c
         ∧ Models.Summary c = Strings.repeat "a"%char 240 +:+ "..."
         ∧ Strings.len (Models.Summary c) = 243.
Proof.
  assert (Importer.firstUser
            (foldl (Importer.visit Strings.asciiToLower) Importer.scan0
               (Importer.traversalPath Importer.rangeByKey Samples.longExport))
          = Samples.longText) as Hfirst by (vm_compute; reflexivity).
  split; [exact Hfirst|].
  eexists. split; [exact convert_long|].
  exact (proj1 (summary_truncation Strings.asciiToLower Importer.rangeByKey
                  Samples.clockA Samples.longExport _ convert_long) Hfirst).
Defined.

(** C1. A conversation without identifier and without any timestamp gets its
    identifier from [newDeterministicID] on the title and on the reading of
    the clock: the same export, converted one second later, gets another
    identifier (and other creation and update instants). *)
Theorem fallback_id_follows_clock :
  Importer.LoadAndConvert (E := unit) Strings.asciiToLower Importer.rangeByKey
    (λ _, Samples.clockA) (inr [Samples.undatedExport])
  = inr [Models.mkConversation "hello-world-20231114221320" "Hello World"
           "Hello World" "" "" "hello-world-20231114221320"
           [Models.mkMessage "n1" "user" "Hello World" GoTime.zero]
           Samples.clockA Samples.clockA]
  ∧ Importer.LoadAndConvert (E := unit) Strings.asciiToLower Importer.rangeByKey
      (λ _, Samples.clockB) (inr [Samples.undatedExport])
    = inr [Models.mkConversation "hello-world-20231114221321" "Hello World"
             "Hello World" "" "" "hello-world-20231114221321"
             [Models.mkMessage "n1" "user" "Hello World" GoTime.zero]
             Samples.clockB Samples.clockB].
Proof. split; vm_compute; reflexivity. Qed.

(** * Further properties *)

(** ** The store *)

Section StoreProperties.

Import GoTime Models Storage.

Context {error : Type} (ErrNotFound : error).
Context (saveLocked : gmap string Conversation → option error).

Lemma merged_set now existing r :
  IsZero (CreatedAt r) = false → IsZero (UpdatedAt r) = false →
  merged now existing r = r.
Proof. intros Hc Hu. unfold merged. rewrite Hc, Hu. by destruct r. Qed.

(** X1. A record with both instants set is stored as it is: [Get] after
    [Upsert] returns the record that was passed in. *)
Theorem Upsert_then_Get (now : Time) (r : Conversation)
    (s : gmap string Conversation) :
  IsZero (CreatedAt r) = false →
  IsZero (UpdatedAt r) = false →
  Get (ID r) (Upsert error saveLocked now r s).1 = Some r.
Proof.
  intros Hc Hu. unfold Get.
  by rewrite Upsert_stores, lookup_insert_eq, merged_set.
Qed.

(** X2. [Upsert] of a record whose identifier is not in the store adds one
    entry; an instant that is zero in the record is the current time in the
    entry, and the other fields are those of the record. *)
Theorem Upsert_new (now : Time) (r : Conversation)
    (s : gmap string Conversation) :
  s !! ID r = None →
  size (Upsert error saveLocked now r s).1 = S (size s)
  ∧ ∃ r', (Upsert error saveLocked now r s).1 !! ID r = Some r'
      ∧ CreatedAt r' = (if IsZero (CreatedAt r) then now else CreatedAt r)
      ∧ UpdatedAt r' = (if IsZero (UpdatedAt r) then now else UpdatedAt r)
      ∧ (ID r', Title r', Summary r', DateStarted r', DateEnded r',
         SourceID r', Messages r')
        = (ID r, Title r, Summary r, DateStarted r, DateEnded r, SourceID r,
           Messages r).
Proof.
  intros Hs. rewrite Upsert_stores. split.
  - by apply map_size_insert_None.
  - exists (merged now (s !! ID r) r). rewrite lookup_insert_eq, Hs. done.
Qed.

(** X3. A second [Upsert] of the same record leaves the creation instant of the
    entry as the first call set it and touches no other entry; when the
    update instant of the record is set, the second call changes nothing at
    all. *)
Theorem Upsert_again (now later : Time) (r : Conversation)
    (s : gmap string Conversation) :
  (CreatedAt <$>
     (Upsert error saveLocked later r (Upsert error saveLocked now r s).1).1
       !! ID r)
  = (CreatedAt <$> (Upsert error saveLocked now r s).1 !! ID r)
  ∧ (IsZero (UpdatedAt r) = false →
     (Upsert error saveLocked later r (Upsert error saveLocked now r s).1).1
     = (Upsert error saveLocked now r s).1).
Proof.
  rewrite !Upsert_stores, !lookup_insert_eq, insert_insert_eq. simpl.
  split.
  - unfold merged; simpl. by destruct (IsZero (CreatedAt r)).
  - intros Hu. f_equal. unfold merged; simpl. rewrite Hu.
    by destruct (IsZero (CreatedAt r)).
Qed.

End StoreProperties.

Lemma Upsert_then_Get_witness :
  GoTime.IsZero (Models.CreatedAt Samples.fresh) = false
  ∧ GoTime.IsZero (Models.UpdatedAt Samples.fresh) = false
  ∧ Storage.Get (Models.ID Samples.fresh)
      (Storage.Upsert unit (λ _, None) Samples.clockA Samples.fresh
         Samples.store0).1
    = Some Samples.fresh.
Proof.
  split; [reflexivity|]. split; [reflexivity|].
  exact (Upsert_then_Get (λ _ : gmap string Models.Conversation, @None unit)
           Samples.clockA Samples.fresh Samples.store0 eq_refl eq_refl).
Defined.

Lemma Upsert_new_witness :
  Samples.store0 !! Models.ID Samples.fresh = None
  ∧ size (Storage.Upsert unit (λ _, None) Samples.clockA Samples.fresh
            Samples.store0).1
    = S (size Samples.store0).
Proof.
  split; [reflexivity|].
  exact (proj1 (Upsert_new (λ _ : gmap string Models.Conversation, @None unit)
                  Samples.clockA Samples.fresh Samples.store0 eq_refl)).
Defined.

Lemma Upsert_again_witness :
  GoTime.IsZero (Models.UpdatedAt Samples.fresh) = false
  ∧ (Storage.Upsert unit (λ _, None) Samples.clockB Samples.fresh
       (Storage.Upsert unit (λ _, None) Samples.clockA Samples.fresh
          Samples.store0).1).1
    = (Storage.Upsert unit (λ _, None) Samples.clockA Samples.fresh
         Samples.store0).1.
Proof.
  split; [reflexivity|].
  exact (proj2 (Upsert_again (λ _ : gmap string Models.Conversation, @None unit)
                  Samples.clockA Samples.clockB Samples.fresh Samples.store0)
               eq_refl).
Defined.

Section StoreOperations.

Import GoTime Models Storage.

Context {error : Type} (ErrNotFound : error).
Context (range : gmap string Conversation → list Conversation).
Context (writeFile : list Conversation → option error).

(** X4. [Delete] of an identifier that is not in the store returns
    [ErrNotFound] and leaves the store as it is; otherwise the entry is
    gone, the store has one entry less and every other entry is as
    before. *)
Theorem Delete_spec (id : string) (s : gmap string Conversation) :
  (s !! id = None →
   Delete error ErrNotFound range writeFile id s = (s, Some ErrNotFound))
  ∧ (is_Some (s !! id) →
     (Delete error ErrNotFound range writeFile id s).1 !! id = None
     ∧ S (size (Delete error ErrNotFound range writeFile id s).1) = size s
     ∧ ∀ id', id' ≠ id →
         (Delete error ErrNotFound range writeFile id s).1 !! id' = s !! id').
Proof.
  unfold Delete. split.
  - by intros ->.
  - intros [c Hc]. rewrite Hc. simpl. split; [apply lookup_delete_eq|]. split.
    + rewrite map_size_delete_Some by eauto.
      assert (size s ≠ 0) by (by eapply map_size_ne_0_lookup_2). lia.
    + intros id' Hne. by apply lookup_delete_ne.
Qed.

(** X5. [Delete] undoes the [Upsert] of a record whose identifier was not in
    the store. *)
Theorem Upsert_then_Delete
    (saveLocked : gmap string Conversation → option error)
    (now : Time) (r : Conversation) (s : gmap string Conversation) :
  s !! ID r = None →
  (Delete error ErrNotFound range writeFile (ID r)
     (Upsert error saveLocked now r s).1).1 = s.
Proof.
  intros Hs. unfold Delete.
  rewrite Upsert_stores, lookup_insert_eq. simpl.
  rewrite delete_insert_eq. by apply delete_id.
Qed.

(** X6. [UpdateTitle] of an identifier that is not in the store returns
    [ErrNotFound] and leaves the store as it is. Otherwise the entry gets
    the title and the current time as update instant and keeps its other
    fields, and the other entries are as before. What the call returns
    follows the save of the map so changed: when the save succeeds, the new
    entry and no error; when the save fails, the empty conversation and the
    error of the save, the entry staying changed in the map. *)
Theorem UpdateTitle_spec (now : Time) (id title : string)
    (s : gmap string Conversation) :
  (s !! id = None →
   UpdateTitle error ErrNotFound range writeFile now id title s
   = (s, (noConversation, Some ErrNotFound)))
  ∧ (∀ c, s !! id = Some c →
     ∃ c', (UpdateTitle error ErrNotFound range writeFile now id title s).1
           = <[id := c']> s
       ∧ (UpdateTitle error ErrNotFound range writeFile now id title s).1 !! id
         = Some c'
       ∧ Title c' = title
       ∧ UpdatedAt c' = now
       ∧ (ID c', Summary c', DateStarted c', DateEnded c', SourceID c',
          Messages c', CreatedAt c')
         = (ID c, Summary c, DateStarted c, DateEnded c, SourceID c,
            Messages c, CreatedAt c)
       ∧ (∀ id', id' ≠ id →
            (UpdateTitle error ErrNotFound range writeFile now id title s).1
              !! id' = s !! id')
       ∧ (Storage.saveLocked error range writeFile (<[id := c']> s) = None →
          (UpdateTitle error ErrNotFound range writeFile now id title s).2
          = (c', None))
       ∧ (∀ err,
            Storage.saveLocked error range writeFile (<[id := c']> s)
            = Some err →
            (UpdateTitle error ErrNotFound range writeFile now id title s).2
            = (noConversation, Some err))).
Proof.
  unfold UpdateTitle. split; [by intros ->|].
  intros c ->.
  exists (withUpdatedAt (withTitle c title) (UTC now)). cbv zeta.
  destruct (saveLocked _ _ _ _) as [err|] eqn:Hsave; simpl;
    rewrite lookup_insert_eq; (repeat split; try done);
    try (intros id' Hne; by apply lookup_insert_ne);
    by intros ? [= <-].
Qed.

(** X7. Every operation keeps the records under their own identifiers. *)
Theorem keyed_preserved
    (saveLocked : gmap string Conversation → option error)
    (now : Time) (r : Conversation) (id title : string)
    (mkdirAll : option error) (file : storeFile error)
    (s : gmap string Conversation) :
  keyed s →
  keyed (Upsert error saveLocked now r s).1
  ∧ keyed (UpdateTitle error ErrNotFound range writeFile now id title s).1
  ∧ keyed (Delete error ErrNotFound range writeFile id s).1
  ∧ keyed (DeleteAll error range writeFile s).1
  ∧ keyed (load error mkdirAll file s).1.
Proof.
  intros Hs. repeat split.
  - rewrite Upsert_stores. intros k c.
    destruct (decide (k = ID r)) as [->|Hne].
    + rewrite lookup_insert_eq. by intros [= <-].
    + rewrite lookup_insert_ne by done. apply Hs.
  - unfold UpdateTitle. destruct (s !! id) as [c0|] eqn:Hid; [|done].
    assert (keyed (<[id:=withUpdatedAt (withTitle c0 title) (UTC now)]> s)) as Hk.
    { intros k c. destruct (decide (k = id)) as [->|Hne].
      - rewrite lookup_insert_eq. intros [= <-]. simpl. by apply Hs.
      - rewrite lookup_insert_ne by done. apply Hs. }
    by destruct (Storage.saveLocked _ _ _ _).
  - unfold Delete. destruct (s !! id) as [c0|]; [|done]. simpl.
    intros k c [_ Hk]%lookup_delete_Some. by apply Hs.
  - intros k c. simpl. by rewrite lookup_empty.
  - unfold load. destruct mkdirAll; [done|].
    destruct file as [| |[err|l]]; try done. simpl.
    revert s Hs. induction l as [|item l IH]; intros s Hs; [done|]. simpl.
    apply IH. intros k c. destruct (decide (k = ID item)) as [->|Hne].
    + rewrite lookup_insert_eq. by intros [= <-].
    + rewrite lookup_insert_ne by done. apply Hs.
Qed.

End StoreOperations.

Lemma byKey_values (m : gmap string Models.Conversation) :
  Samples.byKey m ≡ₚ (map_to_list m).*2.
Proof. reflexivity. Qed.

Lemma store0_keyed : keyed Samples.store0.
Proof.
  intros k c. unfold Samples.store0.
  rewrite !lookup_insert_Some, lookup_empty.
  intros [[<- <-]|[_ [[<- <-]|[_ ?]]]]; done.
Qed.

Lemma Delete_spec_witness :
  is_Some (Samples.store0 !! "c1")
  ∧ (Storage.Delete unit tt Samples.byKey (λ _, None) "c1" Samples.store0).1
      !! "c1" = None
  ∧ S (size (Storage.Delete unit tt Samples.byKey (λ _, None) "c1"
               Samples.store0).1)
    = size Samples.store0.
Proof.
  assert (is_Some (Samples.store0 !! "c1")) as Hs
    by (exists Samples.stored; reflexivity).
  split; [exact Hs|].
  destruct (proj2 (Delete_spec tt Samples.byKey (λ _, None) "c1"
                     Samples.store0) Hs) as (Hgone & Hsize & _).
  split; [exact Hgone|exact Hsize].
Defined.

Lemma Upsert_then_Delete_witness :
  Samples.store0 !! Models.ID Samples.fresh = None
  ∧ (Storage.Delete unit tt Samples.byKey (λ _, None)
       (Models.ID Samples.fresh)
       (Storage.Upsert unit (λ _, None) Samples.clockA Samples.fresh
          Samples.store0).1).1
    = Samples.store0.
Proof.
  split; [reflexivity|].
  exact (Upsert_then_Delete tt Samples.byKey (λ _, None) (λ _, None)
           Samples.clockA Samples.fresh Samples.store0 eq_refl).
Defined.

Lemma UpdateTitle_spec_witness :
  Samples.store0 !! "c1" = Some Samples.stored
  ∧ ∃ c', (Storage.UpdateTitle unit tt Samples.byKey (λ _, None)
             Samples.clockA "c1" "Renamed" Samples.store0).1 !! "c1"
          = Some c'
      ∧ Models.Title c' = "Renamed"
      ∧ Models.UpdatedAt c' = Samples.clockA
      ∧ Storage.saveLocked unit Samples.byKey (λ _, None)
          (<["c1" := c']> Samples.store0) = None
      ∧ (Storage.UpdateTitle unit tt Samples.byKey (λ _, None)
           Samples.clockA "c1" "Renamed" Samples.store0).2
        = (c', None).
Proof.
  split; [reflexivity|].
  destruct (proj2 (UpdateTitle_spec tt Samples.byKey (λ _, None)
                     Samples.clockA "c1" "Renamed" Samples.store0)
                  Samples.stored eq_refl)
    as (c' & _ & Hc' & Ht & Hu & _ & _ & Hok & _).
  exists c'. split; [exact Hc'|]. split; [exact Ht|]. split; [exact Hu|].
  split; [reflexivity|]. exact (Hok eq_refl).
Defined.

Lemma keyed_preserved_witness :
  keyed Samples.store0
  ∧ keyed (Storage.Upsert unit (λ _, None) Samples.clockA
             Samples.incomingBlank Samples.store0).1
  ∧ keyed (Storage.Delete unit tt Samples.byKey (λ _, None) "c1"
             Samples.store0).1.
Proof.
  split; [exact store0_keyed|].
  destruct (keyed_preserved tt Samples.byKey (λ _, None) (λ _, None)
              Samples.clockA Samples.incomingBlank "c1" "Renamed" None
              Storage.NotExist Samples.store0 store0_keyed)
    as (Hu & _ & Hd & _).
  split; [exact Hu|exact Hd].
Defined.

(** ** The listing and the file of the store *)

Section StoreListing.

Import GoTime Models Storage.

Lemma byUpdate_irrefl a : byUpdate a a = false.
Proof.
  unfold byUpdate. destruct (UpdatedAt a) as [s n]. unfold Equal; simpl.
  rewrite !Z.eqb_refl; simpl. apply str_lt_irrefl.
Qed.

Lemma byUpdate_asym a b : byUpdate a b = true → byUpdate b a = false.
Proof.
  unfold byUpdate.
  destruct (UpdatedAt a) as [sa na], (UpdatedAt b) as [sb nb].
  intros H; instants; subst; by apply str_lt_asym.
Qed.

Lemma byUpdate_negtrans a b c :
  byUpdate a b = false → byUpdate b c = false → byUpdate a c = false.
Proof.
  unfold byUpdate.
  destruct (UpdatedAt a) as [sa na], (UpdatedAt b) as [sb nb],
           (UpdatedAt c) as [sc nc].
  intros H1 H2; instants; subst; eauto using str_lt_negtrans.
Qed.

Lemma strictWeakOrder_intro {A} (lessA : A → A → bool) :
  (∀ a b, lessA a b = true → lessA b a = false) →
  (∀ a b c, lessA a b = false → lessA b c = false → lessA a c = false) →
  strictWeakOrder lessA.
Proof.
  intros Hasym Hneg.
  assert (∀ a, lessA a a = false) as Hirr.
  { intros a. destruct (lessA a a) eqn:Ha; [|done]. by rewrite (Hasym a a Ha) in Ha. }
  split; [done|]. split; [done|]. split; [|done].
  intros a b c Hab Hbc. destruct (lessA a c) eqn:Hac; [done|].
  apply Hasym in Hab. by rewrite (Hneg _ _ _ Hab Hac) in Hbc.
Qed.

(** X8. The comparisons the program gives to [sort.Slice], that of the
    timestamp fall-back and that of the store, are strict weak orders. *)
Theorem comparisons_strict_weak :
  strictWeakOrder Importer.less ∧ strictWeakOrder byUpdate.
Proof.
  split; apply strictWeakOrder_intro;
    eauto using less_asym, less_negtrans, byUpdate_asym, byUpdate_negtrans.
Qed.

Context {error : Type}.
Context (range : gmap string Conversation → list Conversation).
Hypothesis range_values : ∀ m, range m ≡ₚ (map_to_list m).*2.

(** X9. [List] returns every record of the store once, without its messages,
    later update instants first and records with equal update instants in
    ascending order of their titles. *)
Theorem List_spec (s : gmap string Conversation) :
  List range s ≡ₚ (λ item, withMessages item []) <$> (map_to_list s).*2
  ∧ length (List range s) = size s
  ∧ Forall (λ c, Messages c = []) (List range s)
  ∧ ∀ i j a b,
      List range s !! i = Some a → List range s !! j = Some b → i < j →
      After (UpdatedAt b) (UpdatedAt a) = false
      ∧ (Equal (UpdatedAt a) (UpdatedAt b) = true →
         Strings.lt (Title b) (Title a) = false).
Proof.
  assert (List range s ≡ₚ (λ item, withMessages item []) <$> (map_to_list s).*2)
    as Hperm.
  { unfold List. by rewrite sort_Slice_perm, range_values. }
  split; [done|]. split; [|split].
  - by rewrite Hperm, !length_fmap, length_map_to_list.
  - rewrite Hperm. apply Forall_fmap, Forall_true. done.
  - intros i j a b Ha Hb Hij.
    assert (byUpdate b a = false) as Hba.
    { eapply (sorted_positions byUpdate); [|exact Ha|exact Hb|exact Hij].
      apply sort_Slice_sorted; [apply byUpdate_asym|apply byUpdate_negtrans]. }
    revert Hba. unfold byUpdate.
    destruct (UpdatedAt a) as [sa na], (UpdatedAt b) as [sb nb].
    intros H; split; [|intros He]; instants.
Qed.

Lemma foldl_insert_union (l : list Conversation) (m : gmap string Conversation) :
  foldl (λ m item, <[ID item := item]> m) m l
  = list_to_map (reverse ((λ c, (ID c, c)) <$> l)) ∪ m.
Proof.
  revert m. induction l as [|x l IH]; intros m.
  { change (m = ∅ ∪ m). by rewrite (left_id_L ∅ (∪)). }
  change (foldl (λ m item, <[ID item := item]> m) (<[ID x := x]> m) l
          = list_to_map (reverse ((ID x, x) :: ((λ c, (ID c, c)) <$> l))) ∪ m).
  rewrite IH, reverse_cons, list_to_map_app.
  rewrite <-(assoc_L (∪)). f_equal.
  change (list_to_map [(ID x, x)]) with (<[ID x := x]> (∅ : gmap string Conversation)).
  by rewrite insert_empty, <-insert_union_singleton_l.
Qed.

Lemma keyed_pairs (s : gmap string Conversation) :
  keyed s → (λ c, (ID c, c)) <$> (map_to_list s).*2 = map_to_list s.
Proof.
  intros Hs. rewrite <-list_fmap_compose.
  rewrite <-(list_fmap_id (map_to_list s)) at 2.
  apply Forall_fmap_ext_1, Forall_forall. intros [k c] Hkc%elem_of_map_to_list.
  simpl. by rewrite (Hs k c Hkc).
Qed.

(** X10. The slice [saveLocked] encodes holds the records of the store, and
    [load] of that slice into an empty map gives the store back, when the
    records are under their own identifiers. A store file that does not
    exist is an empty store and no error. *)
Theorem load_payload (s : gmap string Conversation) :
  keyed s →
  payload range s ≡ₚ (map_to_list s).*2
  ∧ load error None (Opened (inr (payload range s))) ∅ = (s, None)
  ∧ New error None (Opened (inr (payload range s))) = inr s
  ∧ New error None NotExist = inr ∅.
Proof.
  intros Hs.
  assert (payload range s ≡ₚ (map_to_list s).*2) as Hperm.
  { unfold payload. by rewrite sort_Slice_perm, range_values. }
  assert (load error None (Opened (inr (payload range s))) ∅ = (s, None)) as Hload.
  { unfold load. f_equal. rewrite foldl_insert_union, (right_id_L ∅ (∪)).
    rewrite <-(list_to_map_to_list s) at 2. symmetry.
    apply list_to_map_proper; [apply NoDup_fst_map_to_list|].
    by rewrite reverse_Permutation, Hperm, keyed_pairs by done. }
  split; [done|]. split; [done|]. split; [|done].
  unfold New. by rewrite Hload.
Qed.

(** X11. When the array of the file holds several records with one identifier,
    the store holds the last of them. *)
Theorem load_last_wins (l : list Conversation) (id : string)
    (s : gmap string Conversation) :
  (load error None (Opened (inr l)) s).1 !! id
  = match last (filter (λ c, ID c = id) l) with
    | Some c => Some c
    | None => s !! id
    end.
Proof.
  unfold load. simpl. revert s. induction l as [|x l IH]; intros s; [done|].
  simpl. rewrite IH, filter_cons. case_decide as Hx.
  - rewrite last_cons. destruct (last _); [done|].
    by rewrite <-Hx, lookup_insert_eq.
  - destruct (last _); [done|]. by rewrite lookup_insert_ne.
Qed.

End StoreListing.

Lemma List_spec_witness :
  (∀ m, Samples.byKey m ≡ₚ (map_to_list m).*2)
  ∧ length (Storage.List Samples.byKey Samples.store0) = size Samples.store0
  ∧ Forall (λ c, Models.Messages c = [])
           (Storage.List Samples.byKey Samples.store0).
Proof.
  split; [exact byKey_values|].
  destruct (List_spec Samples.byKey byKey_values Samples.store0)
    as (_ & Hlen & Hms & _).
  split; [exact Hlen|exact Hms].
Defined.

Lemma load_payload_witness :
  (∀ m, Samples.byKey m ≡ₚ (map_to_list m).*2)
  ∧ keyed Samples.store0
  ∧ Storage.New unit None
      (Storage.Opened (inr (Storage.payload Samples.byKey Samples.store0)))
    = inr Samples.store0.
Proof.
  split; [exact byKey_values|]. split; [exact store0_keyed|].
  exact (proj1 (proj2 (proj2 (load_payload Samples.byKey byKey_values
                                Samples.store0 store0_keyed)))).
Defined.

(** ** The instants of a record *)

Section Instants.

Import GoTime Models Importer.

Lemma toTime_ok value ts :
  toTime value = (ts, true) → IsZero ts = false.
Proof.
  unfold toTime. destruct value as [v|]; [|done].
  destruct (Math.Modf v) as [seconds frac].
  destruct (IsZero _) eqn:Hz; [done|]. by intros [= <-].
Qed.

Lemma toTime_not_ok value ts :
  toTime value = (ts, false) → ts = GoTime.zero.
Proof.
  unfold toTime. destruct value as [v|]; [|by intros [= <-]].
  destruct (Math.Modf v) as [seconds frac].
  destruct (IsZero _); [by intros [= <-]|done].
Qed.

Lemma After_Before t u : After t u = Before u t.
Proof. destruct t, u. instants. Qed.

Lemma Before_irrefl t : Before t t = false.
Proof. destruct t. instants. Qed.

Lemma Before_asym t u : Before t u = true → Before u t = false.
Proof. destruct t, u. intros H. instants. Qed.

Lemma Before_negtrans t u v :
  Before t u = false → Before u v = false → Before t v = false.
Proof. destruct t, u, v. intros H1 H2. instants. Qed.

Lemma Before_trans t u v :
  Before t u = true → Before u v = true → Before t v = true.
Proof. destruct t, u, v. intros H1 H2. instants. Qed.

(** What one timestamp does to the earliest and the latest instant. *)
Lemma trackTime_ok st value ts :
  toTime value = (ts, true) →
  hasEarliest st = hasLatest st →
  (hasEarliest st = true → After (earliest st) (latest st) = false) →
  hasEarliest (trackTime st value) = true
  ∧ hasLatest (trackTime st value) = true
  ∧ Before ts (earliest (trackTime st value)) = false
  ∧ After ts (latest (trackTime st value)) = false
  ∧ After (earliest (trackTime st value)) (latest (trackTime st value)) = false
  ∧ (earliest (trackTime st value) = ts
     ∨ hasEarliest st = true ∧ earliest (trackTime st value) = earliest st)
  ∧ (latest (trackTime st value) = ts
     ∨ hasLatest st = true ∧ latest (trackTime st value) = latest st)
  ∧ (hasEarliest st = true →
     Before (earliest st) (earliest (trackTime st value)) = false
     ∧ After (latest st) (latest (trackTime st value)) = false).
Proof.
  intros Hts Heq Hord. unfold trackTime. rewrite Hts.
  destruct st as [e l he hl fu fa ms]; simpl in *. subst hl.
  rewrite !After_Before in *.
  destruct he; simpl.
  - specialize (Hord eq_refl).
    destruct (Before ts e) eqn:Hb; simpl; rewrite ?After_Before;
      destruct (Before l ts) eqn:Ha; simpl; rewrite ?After_Before.
    + by rewrite (Before_trans _ _ _ Ha Hb) in Hord.
    + repeat split; auto using Before_irrefl, Before_asym.
    + repeat split; auto using Before_irrefl, Before_asym.
    + repeat split; auto using Before_irrefl, Before_asym.
  - rewrite ?After_Before. repeat split; auto using Before_irrefl; done.
Qed.

Lemma trackTime_not_ok st value ts :
  toTime value = (ts, false) → trackTime st value = st.
Proof. intros Hts. unfold trackTime. by rewrite Hts. Qed.

End Instants.

Section Records.

Import GoTime Models Importer.

Variable ToLower : string → string.
Variable range : gmap string exportNode → list exportNode.
Hypothesis range_values : ∀ m, range m ≡ₚ (map_to_list m).*2.

Lemma visit_times st n m :
  Message n = Some m →
  earliest (visit ToLower st n) = earliest (trackTime st (msgCreateTime m))
  ∧ latest (visit ToLower st n) = latest (trackTime st (msgCreateTime m))
  ∧ hasEarliest (visit ToLower st n)
    = hasEarliest (trackTime st (msgCreateTime m))
  ∧ hasLatest (visit ToLower st n) = hasLatest (trackTime st (msgCreateTime m)).
Proof.
  intros Hm. unfold visit. rewrite Hm.
  repeat case_bool_decide; done.
Qed.

Lemma visit_timed st n :
  timed st →
  timed (visit ToLower st n)
  ∧ (hasEarliest st = true →
     hasEarliest (visit ToLower st n) = true
     ∧ Before (earliest st) (earliest (visit ToLower st n)) = false
     ∧ After (latest st) (latest (visit ToLower st n)) = false)
  ∧ (∀ m ts, Message n = Some m → toTime (msgCreateTime m) = (ts, true) →
     hasEarliest (visit ToLower st n) = true
     ∧ Before ts (earliest (visit ToLower st n)) = false
     ∧ After ts (latest (visit ToLower st n)) = false).
Proof.
  intros (Heq & Hord). unfold timed.
  destruct (Message n) as [m|] eqn:Hm.
  - destruct (visit_times st n m Hm) as (-> & -> & -> & ->).
    destruct (toTime (msgCreateTime m)) as [ts [|]] eqn:Hts.
    + destruct (trackTime_ok st _ ts Hts Heq) as
        (He & Hl & Hb & Ha & Ho & Hemin & Hlmax & Hmono).
      { intros H. by apply Hord. }
      pose proof (toTime_ok _ _ Hts) as Hz.
      split; [|split].
      * split; [congruence|]. intros _. split; [done|].
        split.
        -- destruct Hemin as [->|[H ->]]; [done|]. by apply Hord.
        -- destruct Hlmax as [->|[H ->]]; [done|]. apply Hord. congruence.
      * intros H. split; [done|]. by apply Hmono.
      * intros m' ts' [= <-] Hts'. rewrite Hts in Hts'. by injection Hts' as <-.
    + rewrite (trackTime_not_ok st _ ts Hts).
      split; [done|]. split.
      * intros H. rewrite After_Before. auto using Before_irrefl.
      * intros m' ts' [= <-] Hts'. congruence.
  - unfold visit. rewrite Hm. split; [done|]. split; [|done].
    intros H. rewrite After_Before. auto using Before_irrefl.
Qed.

Lemma scan_timed l st :
  timed st →
  timed (foldl (visit ToLower) st l)
  ∧ (hasEarliest st = true →
     hasEarliest (foldl (visit ToLower) st l) = true
     ∧ Before (earliest st) (earliest (foldl (visit ToLower) st l)) = false
     ∧ After (latest st) (latest (foldl (visit ToLower) st l)) = false)
  ∧ (∀ n m ts, n ∈ l → Message n = Some m →
     toTime (msgCreateTime m) = (ts, true) →
     hasEarliest (foldl (visit ToLower) st l) = true
     ∧ Before ts (earliest (foldl (visit ToLower) st l)) = false
     ∧ After ts (latest (foldl (visit ToLower) st l)) = false).
Proof.
  revert st. induction l as [|x l IH]; intros st Hst; simpl.
  { split; [done|]. split.
    - intros H. rewrite After_Before. auto using Before_irrefl.
    - intros n m ts []%elem_of_nil. }
  destruct (visit_timed st x Hst) as (Hst1 & Hmono1 & Hx).
  destruct (IH _ Hst1) as (Hst' & Hmono & Hl).
  split; [done|]. split.
  - intros H. destruct (Hmono1 H) as (H1 & Hb1 & Ha1).
    destruct (Hmono H1) as (H2 & Hb2 & Ha2). split; [done|].
    rewrite After_Before in *. eauto using Before_negtrans.
  - intros n m ts [->|Hn]%elem_of_cons Hm Hts; [|eauto].
    destruct (Hx m ts Hm Hts) as (H1 & Hb1 & Ha1).
    destruct (Hmono H1) as (H2 & Hb2 & Ha2). split; [done|].
    rewrite After_Before in *. eauto using Before_negtrans.
Qed.

Lemma timed_scan0 : timed scan0.
Proof. split; [done|]. intros [=]. Qed.

(** The instants and the dates of a record in terms of the loop over the
    timeline. *)
Lemma convertConversation_instants now raw c :
  convertConversation ToLower range now raw = Some c →
  ∃ e he l hl,
    (if negb (hasEarliest (foldl (visit ToLower) scan0 (traversalPath range raw)))
     then
       let '(ts, ok) := toTime (CreateTime raw) in
       if ok then (ts, true)
       else (earliest (foldl (visit ToLower) scan0 (traversalPath range raw)),
             hasEarliest (foldl (visit ToLower) scan0 (traversalPath range raw)))
     else (earliest (foldl (visit ToLower) scan0 (traversalPath range raw)),
           hasEarliest (foldl (visit ToLower) scan0 (traversalPath range raw))))
    = (e, he)
    ∧ (if negb (hasLatest (foldl (visit ToLower) scan0 (traversalPath range raw)))
       then
         let '(ts, ok) := toTime (UpdateTime raw) in
         if ok then (ts, true)
         else (latest (foldl (visit ToLower) scan0 (traversalPath range raw)),
               hasLatest (foldl (visit ToLower) scan0 (traversalPath range raw)))
       else (latest (foldl (visit ToLower) scan0 (traversalPath range raw)),
             hasLatest (foldl (visit ToLower) scan0 (traversalPath range raw))))
      = (l, hl)
    ∧ CreatedAt c = (if he then e else now)
    ∧ DateStarted c = (if he then Format e layoutDate else "")
    ∧ UpdatedAt c = (if hl then l else CreatedAt c)
    ∧ DateEnded c = (if hl then Format l layoutDate else "").
Proof.
  unfold convertConversation.
  case_bool_decide; [done|]. case_bool_decide; [done|]. cbv zeta.
  match goal with
  | |- match ?x with (_, _) => _ end = _ → _ => destruct x as [e he] eqn:E1
  end.
  match goal with
  | |- match ?x with (_, _) => _ end = _ → _ => destruct x as [l hl] eqn:E2
  end.
  intros Hc. exists e, he, l, hl. split; [done|]. split; [done|].
  destruct he, hl; cbv beta iota in Hc; apply (inj Some) in Hc; subst c;
    cbn [CreatedAt UpdatedAt DateStarted DateEnded]; done.
Qed.

Lemma convertConversation_title now raw c :
  convertConversation ToLower range now raw = Some c →
  Title c =
    if bool_decide (Strings.TrimSpace (rawTitle raw) = "") then
      if bool_decide (truncate (Summary c) 80 = "") then "Untitled conversation"
      else truncate (Summary c) 80
    else Strings.TrimSpace (rawTitle raw).
Proof.
  unfold convertConversation.
  case_bool_decide; [done|]. case_bool_decide; [done|]. cbv zeta.
  repeat match goal with
  | |- context [match ?x with (_, _) => _ end] => destruct x
  end.
  intros Hc. apply (inj Some) in Hc. subst c. cbn [Title Summary]. done.
Qed.

Lemma truncate_empty text limit : truncate text limit = "" → text = "".
Proof.
  unfold truncate. destruct (Strings.len text <=? limit); [done|].
  destruct (Strings.HasSuffix _ "...") eqn:Hs; simpl.
  - intros He. rewrite He in Hs. done.
  - intros He%(f_equal String.length). rewrite length_append in He.
    simpl in He. lia.
Qed.

Lemma summaryOf_nonempty st : summaryOf st ≠ "".
Proof. unfold summaryOf. by case_bool_decide. Qed.

(** X12. The texts of a record are never empty. The summary is at least the
    placeholder; the title is the title of the export, trimmed, or, when
    that is empty, the summary cut after 80 bytes (the branch for a title
    that is still empty is never taken); the identifier is not empty and
    the source identifier repeats it. *)
Theorem record_texts (now : Time) (raw : exportConversation) (c : Conversation) :
  convertConversation ToLower range now raw = Some c →
  Summary c ≠ ""
  ∧ Title c ≠ ""
  ∧ Title c = (if bool_decide (Strings.TrimSpace (rawTitle raw) = "")
               then truncate (Summary c) 80
               else Strings.TrimSpace (rawTitle raw))
  ∧ ID c ≠ ""
  ∧ SourceID c = ID c.
Proof.
  intros Hc.
  pose proof (convertConversation_Some _ _ _ _ _ Hc) as (Hsum & _ & Hsrc).
  pose proof (convertConversation_title _ _ _ Hc) as Ht.
  assert (Summary c ≠ "") as Hs by (rewrite Hsum; apply summaryOf_nonempty).
  assert (truncate (Summary c) 80 ≠ "") as Ht80.
  { intros He%truncate_empty. done. }
  rewrite (bool_decide_false _ Ht80) in Ht.
  split; [done|]. split; [|split; [done|split; [|done]]].
  - rewrite Ht. by case_bool_decide.
  - by eapply convertConversation_ID.
Qed.

Lemma stampOf_app l l' t : stampOf l t → stampOf (l ++ l') t.
Proof.
  intros (n & m & Hn & Hm & Hts). exists n, m. split; [|done].
  apply elem_of_app. by left.
Qed.

(** The earliest and the latest instant of the loop are timestamps of
    messages of the nodes the loop has seen. *)
Lemma visit_stamped l st n :
  timed st →
  (hasEarliest st = true →
   stampOf l (earliest st) ∧ stampOf l (latest st)) →
  hasEarliest (visit ToLower st n) = true →
  stampOf (l ++ [n]) (earliest (visit ToLower st n))
  ∧ stampOf (l ++ [n]) (latest (visit ToLower st n)).
Proof.
  intros (Heq & Hord) Hst.
  destruct (Message n) as [m|] eqn:Hm.
  - destruct (visit_times st n m Hm) as (-> & -> & -> & _).
    destruct (toTime (msgCreateTime m)) as [ts [|]] eqn:Hts.
    + destruct (trackTime_ok st _ ts Hts Heq) as
        (_ & _ & _ & _ & _ & Hemin & Hlmax & _).
      { intros H. by apply Hord. }
      assert (stampOf (l ++ [n]) ts) as Hn.
      { exists n, m. split; [|done]. apply elem_of_app. right. by left. }
      intros _. split.
      * destruct Hemin as [->|[H ->]]; [done|].
        by apply stampOf_app, Hst.
      * destruct Hlmax as [->|[H ->]]; [done|].
        apply stampOf_app, Hst. congruence.
    + rewrite (trackTime_not_ok st _ ts Hts). intros H.
      split; by apply stampOf_app, Hst.
  - unfold visit. rewrite Hm. intros H. split; by apply stampOf_app, Hst.
Qed.

Lemma scan_stamped l' : ∀ l st,
  timed st →
  (hasEarliest st = true →
   stampOf l (earliest st) ∧ stampOf l (latest st)) →
  hasEarliest (foldl (visit ToLower) st l') = true →
  stampOf (l ++ l') (earliest (foldl (visit ToLower) st l'))
  ∧ stampOf (l ++ l') (latest (foldl (visit ToLower) st l')).
Proof.
  induction l' as [|n l' IH]; intros l st Hst Hl; simpl.
  { rewrite app_nil_r. exact Hl. }
  intros H. rewrite (cons_middle n l l'), (assoc_L (++)).
  apply IH; [by apply visit_timed| |done].
  by apply visit_stamped.
Qed.

(** X13. When a node of the timeline has a message with a timestamp that
    parses, the creation instant of the record is the earliest and its
    update instant the latest of these timestamps: each of the two is the
    timestamp of the message of a node of the timeline, no such timestamp
    is before the creation instant or after the update instant, and the
    creation instant is not after the update instant. The dates are the
    days of these two instants. *)
Theorem record_instants (now : Time) (raw : exportConversation)
    (c : Conversation) (n : exportNode) (m : exportMessage) (ts : Time) :
  convertConversation ToLower range now raw = Some c →
  n ∈ traversalPath range raw →
  Message n = Some m →
  toTime (msgCreateTime m) = (ts, true) →
  Before ts (CreatedAt c) = false
  ∧ After ts (UpdatedAt c) = false
  ∧ After (CreatedAt c) (UpdatedAt c) = false
  ∧ stampOf (traversalPath range raw) (CreatedAt c)
  ∧ stampOf (traversalPath range raw) (UpdatedAt c)
  ∧ DateStarted c = Format (CreatedAt c) layoutDate
  ∧ DateEnded c = Format (UpdatedAt c) layoutDate.
Proof.
  intros Hc Hn Hm Hts.
  destruct (scan_timed (traversalPath range raw) scan0 timed_scan0)
    as ((Heq & Hord) & _ & Hall).
  destruct (Hall n m ts Hn Hm Hts) as (He & Hb & Ha).
  destruct (Hord He) as (Ho & _).
  destruct (scan_stamped (traversalPath range raw) [] scan0 timed_scan0)
    as (Hse & Hsl); [by intros [=]|done|]. simpl in Hse, Hsl.
  destruct (convertConversation_instants _ _ _ Hc)
    as (e & he & l & hl & E1 & E2 & -> & -> & -> & ->).
  rewrite He in E1. rewrite <-Heq, He in E2. simpl in E1, E2.
  injection E1 as <- <-. injection E2 as <- <-. done.
Qed.

(** X14. The instants of a record are set, when the clock is not at the zero
    instant; so [Upsert] stores the record as it is, and [Get] returns
    it. *)
Theorem record_stored {error : Type}
    (saveLocked : gmap string Conversation → option error)
    (now later : Time) (raw : exportConversation) (c : Conversation)
    (s : gmap string Conversation) :
  IsZero now = false →
  convertConversation ToLower range now raw = Some c →
  IsZero (CreatedAt c) = false
  ∧ IsZero (UpdatedAt c) = false
  ∧ Storage.Get (ID c) (Storage.Upsert error saveLocked later c s).1 = Some c.
Proof.
  intros Hnow Hc.
  destruct (scan_timed (traversalPath range raw) scan0 timed_scan0)
    as ((Heq & Hord) & _ & _).
  destruct (convertConversation_instants _ _ _ Hc)
    as (e & he & l & hl & E1 & E2 & Hca & _ & Hua & _).
  assert (IsZero (CreatedAt c) = false) as Hcz.
  { rewrite Hca. destruct he; [|done].
    destruct (hasEarliest _) eqn:He; simpl in E1.
    - injection E1 as <-. by apply Hord.
    - destruct (toTime (CreateTime raw)) as [ts [|]] eqn:Hts; [|congruence].
      injection E1 as <-. by eapply toTime_ok. }
  assert (IsZero (UpdatedAt c) = false) as Huz.
  { rewrite Hua. destruct hl; [|done].
    destruct (hasLatest _) eqn:Hl; simpl in E2.
    - injection E2 as <-. apply Hord. congruence.
    - destruct (toTime (UpdateTime raw)) as [ts [|]] eqn:Hts; [|congruence].
      injection E2 as <-. by eapply toTime_ok. }
  split; [done|]. split; [done|].
  unfold Storage.Get. rewrite Upsert_stores, lookup_insert_eq.
  unfold merged. rewrite Hcz, Huz. by destruct c.
Qed.

Lemma visit_messages st n :
  messages (visit ToLower st n) = messages st ++ option_list (turnOf ToLower n).
Proof.
  unfold visit, turnOf. destruct (Message n) as [m|]; [|by rewrite app_nil_r].
  pose proof (trackTime_texts st (msgCreateTime m)) as (_ & _ & Hms).
  destruct (decide (extractText (Content m) = "")) as [Ht|Ht].
  { rewrite (bool_decide_true _ Ht), (bool_decide_false (_ ∧ _))
      by (intros [Hne _]; exact (Hne Ht)).
    simpl. by rewrite Hms, app_nil_r. }
  rewrite (bool_decide_false _ Ht).
  destruct (decide (ToLower (Role (Author m)) = "user")) as [Hu|Hu].
  { rewrite (bool_decide_true _ Hu), (bool_decide_true (_ ∧ _)) by auto.
    simpl. by rewrite Hms. }
  rewrite (bool_decide_false _ Hu).
  destruct (decide (ToLower (Role (Author m)) = "assistant")) as [Ha|Ha].
  { rewrite (bool_decide_true _ Ha), (bool_decide_true (_ ∧ _)) by auto.
    simpl. by rewrite Hms. }
  rewrite (bool_decide_false _ Ha), (bool_decide_false (_ ∧ _))
    by (intros [_ [?|?]]; contradiction).
  simpl. by rewrite Hms, app_nil_r.
Qed.

Lemma scan_messages l st :
  messages (foldl (visit ToLower) st l) = messages st ++ omap (turnOf ToLower) l.
Proof.
  revert st. induction l as [|n l IH]; intros st; simpl.
  { by rewrite app_nil_r. }
  rewrite IH, visit_messages, <-(assoc_L (++)). f_equal.
  by destruct (turnOf ToLower n).
Qed.

Lemma turnOf_turn n msg :
  turnOf ToLower n = Some msg → turn msg ∧ mID msg = nodeID n.
Proof.
  unfold turnOf, turn. destruct (Message n) as [m|]; [|done].
  case_bool_decide as H; [|done]. intros [= <-]. simpl. tauto.
Qed.

(** X15. The messages of a record are the nodes of the timeline that carry a
    message with text whose role, in lower case, is ["user"] or
    ["assistant"], in the order of the timeline, under the ids of the
    nodes; every one of them has one of the two roles, text that is not
    empty, and the id of a node of the mapping. *)
Theorem record_messages (now : Time) (raw : exportConversation)
    (c : Conversation) :
  convertConversation ToLower range now raw = Some c →
  Messages c = omap (turnOf ToLower) (traversalPath range raw)
  ∧ Forall turn (Messages c)
  ∧ mID <$> Messages c `sublist_of` nodeID <$> traversalPath range raw
  ∧ ∀ msg, msg ∈ Messages c →
      ∃ k n, Mapping raw !! k = Some n ∧ nodeID n = mID msg.
Proof.
  intros (_ & Hms & _)%convertConversation_Some.
  rewrite scan_messages in Hms. simpl in Hms.
  split; [done|]. rewrite Hms. split; [|split].
  - apply Forall_forall. intros msg (n & _ & Hn)%list_elem_of_omap.
    by apply turnOf_turn in Hn as [? _].
  - clear Hms. induction (traversalPath range raw) as [|n l IH]; [done|].
    rewrite fmap_cons. cbn [omap list_omap].
    destruct (turnOf ToLower n) as [msg|] eqn:Hn.
    + apply turnOf_turn in Hn as [_ Hid]. rewrite fmap_cons, Hid.
      by apply sublist_skip.
    + by apply sublist_cons.
  - intros msg (n & Hin & Hn)%list_elem_of_omap.
    apply turnOf_turn in Hn as [_ Hid].
    apply traversalPath_elem_of in Hin as [k Hk]; [|done]. eauto.
Qed.

(** X16. [LoadAndConvert] leaves out the entries whose mapping is empty, and no
    others: there are as many records as entries with a mapping that is not
    empty. *)
Theorem convertAll_length (clock : nat → Time) (i : nat)
    (payload : list exportConversation) :
  length (convertAll ToLower range clock i payload)
  = length (filter (λ raw, size (Mapping raw) ≠ 0) payload).
Proof.
  revert i. induction payload as [|raw payload IH]; intros i; simpl; [done|].
  rewrite filter_cons.
  destruct (convertConversation ToLower range (clock i) raw) as [c|] eqn:Hc.
  - case_decide as Hm; simpl; [by rewrite IH|].
    assert (Mapping raw = ∅) as He by (apply map_size_empty_iff; lia).
    apply (convertConversation_None ToLower range range_values (clock i)) in He.
    congruence.
  - apply convertConversation_None in Hc; [|done].
    apply map_size_empty_iff in Hc. case_decide; [done|]. apply IH.
Qed.

End Records.

Lemma hello_first_node :
  Importer.mkNode "n1" "" ["n2"]
    (Some (Samples.textMessage "user" "Hello" (Some (Math.of_int 1000))))
  ∈ Importer.traversalPath Importer.rangeByKey Samples.helloExport.
Proof. apply (list_elem_of_lookup_2 _ 0). vm_compute. reflexivity. Qed.

Lemma record_texts_witness :
  ∃ c, Importer.convertConversation Strings.asciiToLower Importer.rangeByKey
         Samples.clockA Samples.helloExport = Some c
    ∧ Models.Summary c ≠ ""
    ∧ Models.Title c ≠ ""
    ∧ Models.SourceID c = Models.ID c.
Proof.
  eexists. split; [exact convert_hello|].
  destruct (record_texts Strings.asciiToLower Importer.rangeByKey
              Samples.clockA Samples.helloExport _ convert_hello)
    as (Hs & Ht & _ & _ & Hsrc).
  split; [exact Hs|]. split; [exact Ht|exact Hsrc].
Defined.

Lemma record_instants_witness :
  ∃ c, Importer.convertConversation Strings.asciiToLower Importer.rangeByKey
         Samples.clockA Samples.helloExport = Some c
    ∧ Importer.toTime (Some (Math.of_int 1000)) = (GoTime.Unix 1000 0, true)
    ∧ GoTime.Before (GoTime.Unix 1000 0) (Models.CreatedAt c) = false
    ∧ GoTime.After (GoTime.Unix 1000 0) (Models.UpdatedAt c) = false
    ∧ GoTime.After (Models.CreatedAt c) (Models.UpdatedAt c) = false
    ∧ stampOf (Importer.traversalPath Importer.rangeByKey Samples.helloExport)
        (Models.CreatedAt c)
    ∧ stampOf (Importer.traversalPath Importer.rangeByKey Samples.helloExport)
        (Models.UpdatedAt c).
Proof.
  assert (Importer.toTime (Some (Math.of_int 1000)) = (GoTime.Unix 1000 0, true))
    as Hts by (vm_compute; reflexivity).
  eexists. split; [exact convert_hello|]. split; [exact Hts|].
  destruct (record_instants Strings.asciiToLower Importer.rangeByKey
              Samples.clockA Samples.helloExport _ _ _ _
              convert_hello hello_first_node eq_refl Hts)
    as (Hb & Ha & Hab & Hse & Hsl & _).
  split; [exact Hb|]. split; [exact Ha|]. split; [exact Hab|].
  split; [exact Hse|exact Hsl].
Defined.

Lemma record_stored_witness :
  GoTime.IsZero Samples.clockA = false
  ∧ ∃ c, Importer.convertConversation Strings.asciiToLower Importer.rangeByKey
           Samples.clockA Samples.helloExport = Some c
      ∧ Storage.Get (Models.ID c)
          (Storage.Upsert unit (λ _, None) Samples.clockB c Samples.store0).1
        = Some c.
Proof.
  split; [reflexivity|].
  eexists. split; [exact convert_hello|].
  exact (proj2 (proj2 (record_stored Strings.asciiToLower Importer.rangeByKey
                         (λ _ : gmap string Models.Conversation, @None unit)
                         Samples.clockA Samples.clockB Samples.helloExport _
                         Samples.store0 eq_refl convert_hello))).
Defined.

Lemma record_messages_witness :
  (∀ m, Importer.rangeByKey m ≡ₚ (map_to_list m).*2)
  ∧ ∃ c, Importer.convertConversation Strings.asciiToLower Importer.rangeByKey
           Samples.clockA Samples.helloExport = Some c
      ∧ Models.Messages c
        = omap (turnOf Strings.asciiToLower)
            (Importer.traversalPath Importer.rangeByKey Samples.helloExport)
      ∧ Forall turn (Models.Messages c).
Proof.
  split; [exact rangeByKey_values|].
  eexists. split; [exact convert_hello|].
  destruct (record_messages Strings.asciiToLower Importer.rangeByKey
              rangeByKey_values Samples.clockA Samples.helloExport _
              convert_hello) as (Hms & Hturn & _).
  split; [exact Hms|exact Hturn].
Defined.

Lemma convertAll_length_witness :
  (∀ m, Importer.rangeByKey m ≡ₚ (map_to_list m).*2)
  ∧ length (Importer.convertAll Strings.asciiToLower Importer.rangeByKey
              (λ _, Samples.clockA) 0
              [Samples.helloExport;
               Importer.mkExport "e" "" "Empty" None None "" ∅;
               Samples.silentExport])
    = 2.
Proof.
  split; [exact rangeByKey_values|].
  exact (convertAll_length Strings.asciiToLower Importer.rangeByKey
           rangeByKey_values (λ _, Samples.clockA) 0
           [Samples.helloExport;
            Importer.mkExport "e" "" "Empty" None None "" ∅;
            Samples.silentExport]).
Defined.

(** ** The summary and the transcript *)

Section SummarySource.

Import GoTime Models Importer.

Variable ToLower : string → string.
Variable range : gmap string exportNode → list exportNode.

Lemma firstOf_snoc role ms msg :
  Forall turn ms →
  firstOf role (ms ++ [msg])
  = if bool_decide (firstOf role ms = "")
    then (if bool_decide (mAuthor msg = role) then mContent msg else "")
    else firstOf role ms.
Proof.
  intros Hms. unfold firstOf. rewrite filter_app.
  destruct (filter _ ms) as [|x xs] eqn:Hf; simpl.
  - rewrite filter_cons, filter_nil. by case_decide; case_bool_decide.
  - assert (x ∈ filter (λ m, mAuthor m = role) ms) as Hx by (rewrite Hf; left).
    apply list_elem_of_filter in Hx as [_ Hx].
    rewrite Forall_forall in Hms. destruct (Hms x Hx) as [_ Hc].
    by rewrite bool_decide_false.
Qed.

(** The first texts after one turn of the loop. *)
Lemma visit_firsts st n :
  firstUser (visit ToLower st n)
  = match turnOf ToLower n with
    | Some msg =>
        if bool_decide (firstUser st = "")
        then (if bool_decide (mAuthor msg = "user") then mContent msg else "")
        else firstUser st
    | None => firstUser st
    end
  ∧ firstAssistant (visit ToLower st n)
    = match turnOf ToLower n with
      | Some msg =>
          if bool_decide (firstAssistant st = "")
          then (if bool_decide (mAuthor msg = "assistant") then mContent msg
                else "")
          else firstAssistant st
      | None => firstAssistant st
      end.
Proof.
  unfold visit, turnOf. destruct (Message n) as [m|]; [|done].
  pose proof (trackTime_texts st (msgCreateTime m)) as (Hfu & Hfa & _).
  destruct (decide (extractText (Content m) = "")) as [Ht|Ht].
  { rewrite (bool_decide_true _ Ht), (bool_decide_false (_ ∧ _))
      by (intros [Hne _]; exact (Hne Ht)). done. }
  rewrite (bool_decide_false _ Ht).
  destruct (decide (ToLower (Role (Author m)) = "user")) as [Hu|Hu].
  { rewrite (bool_decide_true _ Hu), (bool_decide_true (_ ∧ _)) by auto.
    simpl. rewrite Hfu, Hfa, Hu. simpl.
    split; [done|]. by case_bool_decide. }
  rewrite (bool_decide_false _ Hu).
  destruct (decide (ToLower (Role (Author m)) = "assistant")) as [Ha|Ha].
  { rewrite (bool_decide_true _ Ha), (bool_decide_true (_ ∧ _)) by auto.
    simpl. rewrite Hfu, Hfa, Ha. simpl.
    split; [|done]. by case_bool_decide. }
  by rewrite (bool_decide_false _ Ha), (bool_decide_false (_ ∧ _))
    by (intros [_ [?|?]]; contradiction).
Qed.

Lemma scan_firsts l st :
  Forall turn (messages st) →
  firstUser st = firstOf "user" (messages st) →
  firstAssistant st = firstOf "assistant" (messages st) →
  firstUser (foldl (visit ToLower) st l)
  = firstOf "user" (messages (foldl (visit ToLower) st l))
  ∧ firstAssistant (foldl (visit ToLower) st l)
    = firstOf "assistant" (messages (foldl (visit ToLower) st l)).
Proof.
  revert st. induction l as [|n l IH]; intros st Hms Hu Ha; simpl; [done|].
  destruct (visit_firsts st n) as (Hu' & Ha').
  pose proof (visit_messages ToLower st n) as Hm'.
  destruct (turnOf ToLower n) as [msg|] eqn:Hn; simpl in Hm'.
  - apply turnOf_turn in Hn as [Hturn _].
    apply IH.
    + rewrite Hm'. apply Forall_app. split; [done|]. by constructor.
    + by rewrite Hu', Hm', firstOf_snoc, Hu.
    + by rewrite Ha', Hm', firstOf_snoc, Ha.
  - rewrite app_nil_r in Hm'. apply IH; congruence.
Qed.

(** X17. The summary of a record comes from its messages: it is the text of the
    first user message or, without user message, of the first assistant
    message, cut after 240 bytes; a record without messages has the
    placeholder as summary. *)
Theorem summary_source (now : Time) (raw : exportConversation)
    (c : Conversation) :
  convertConversation ToLower range now raw = Some c →
  Summary c
  = (if bool_decide
          (truncate (firstNonEmpty [firstOf "user" (Messages c);
                                    firstOf "assistant" (Messages c)]) 240 = "")
     then "No summary available"
     else truncate (firstNonEmpty [firstOf "user" (Messages c);
                                   firstOf "assistant" (Messages c)]) 240)
  ∧ (Messages c = [] → Summary c = "No summary available").
Proof.
  intros (Hsum & Hms & _)%convertConversation_Some.
  destruct (scan_firsts (traversalPath range raw) scan0) as (Hu & Ha);
    [by constructor|done|done|].
  assert (Summary c
          = (if bool_decide
                  (truncate (firstNonEmpty [firstOf "user" (Messages c);
                                            firstOf "assistant" (Messages c)])
                     240 = "")
             then "No summary available"
             else truncate (firstNonEmpty [firstOf "user" (Messages c);
                                           firstOf "assistant" (Messages c)])
                    240)) as Hs.
  { rewrite Hsum, Hms. unfold summaryOf. by rewrite Hu, Ha. }
  split; [done|]. intros He. rewrite Hs, He. reflexivity.
Qed.

End SummarySource.

Lemma summary_source_witness :
  ∃ c, Importer.convertConversation Strings.asciiToLower Importer.rangeByKey
         Samples.clockA Samples.helloExport = Some c
    ∧ Models.Summary c
      = (if bool_decide
              (Importer.truncate
                 (Importer.firstNonEmpty
                    [firstOf "user" (Models.Messages c);
                     firstOf "assistant" (Models.Messages c)]) 240 = "")
         then "No summary available"
         else Importer.truncate
                (Importer.firstNonEmpty
                   [firstOf "user" (Models.Messages c);
                    firstOf "assistant" (Models.Messages c)]) 240).
Proof.
  eexists. split; [exact convert_hello|].
  exact (proj1 (summary_source Strings.asciiToLower Importer.rangeByKey
                  Samples.clockA Samples.helloExport _ convert_hello)).
Defined.

(** ** The path from the current node *)

Section Path.

Import GoTime Models Importer.

Variable range : gmap string exportNode → list exportNode.

Lemma walk_chain fuel mapping seen nodeID path p :
  walk fuel mapping seen nodeID path = Some p →
  ∃ q, p = path ++ q ∧ chain mapping nodeID q.
Proof.
  revert seen nodeID path.
  induction fuel as [|fuel IH]; intros seen nodeID path; simpl; [done|].
  case_bool_decide.
  { intros [= <-]. exists []. by rewrite app_nil_r. }
  destruct (mapping !! nodeID) as [node|] eqn:Hnode.
  2: { intros [= <-]. exists []. by rewrite app_nil_r. }
  case_bool_decide.
  { intros [= <-]. by exists [node]. }
  intros (q & -> & Hq)%IH. exists (node :: q).
  by rewrite <-(assoc_L (++)).
Qed.

Lemma chain_lookup mapping id q i a b :
  chain mapping id q → q !! i = Some b → q !! S i = Some a →
  mapping !! Parent b = Some a.
Proof.
  revert id i. induction q as [|n q IH]; intros id i; [done|].
  intros [_ Hq]. destruct i as [|i]; simpl.
  - intros [= <-]. destruct q as [|n' q]; [done|].
    intros [= <-]. by destruct Hq.
  - intros. eapply IH; eauto.
Qed.

(** The walk goes on until it has appended a node without parent in the
    mapping, or a node that it had appended before. *)
Lemma walk_complete fuel mapping seen nodeID path p :
  (∀ k, k ∈ seen → ∃ n, mapping !! k = Some n ∧ n ∈ path) →
  walk fuel mapping seen nodeID path = Some p →
  (p = path ∧ (nodeID = "" ∨ mapping !! nodeID = None))
  ∨ ∃ p' r, p = p' ++ [r]
      ∧ (Parent r = "" ∨ mapping !! Parent r = None ∨ r ∈ p').
Proof.
  revert seen nodeID path.
  induction fuel as [|fuel IH]; intros seen nodeID path Hseen; simpl; [done|].
  case_bool_decide as Hid; [intros [= <-]; auto|].
  destruct (mapping !! nodeID) as [node|] eqn:Hnode; [|intros [= <-]; auto].
  case_bool_decide as Hin.
  { intros [= <-]. right. exists path, node. split; [done|].
    destruct (Hseen _ Hin) as (n & Hn & Hpath). right; right. congruence. }
  intros Hw. right. apply IH in Hw as [[-> Hstop]|Hw]; [|done|].
  - exists path, node. split; [done|]. tauto.
  - intros k [->%elem_of_singleton|Hk]%elem_of_union.
    + exists node. split; [done|]. apply elem_of_app. right. by left.
    + destruct (Hseen k Hk) as (n & Hn & Hp). exists n. split; [done|].
      apply elem_of_app. by left.
Qed.

(** X18. When the current node is a node of the mapping, the timeline is
    the chain of its ancestors, read from the root end to the leaf: it
    ends with the current node; every node of it is what the mapping holds
    under the parent id of the node after it; and the chain is followed to
    its end, for the first node of the timeline has no parent id, or one
    that is not in the mapping, or is, in a cycle of parents, a node that
    the timeline holds a second time further on. *)
Theorem traversalPath_chain (raw : exportConversation) (leaf : exportNode) :
  CurrentNode raw ≠ "" →
  Mapping raw !! CurrentNode raw = Some leaf →
  last (traversalPath range raw) = Some leaf
  ∧ chain (Mapping raw) (CurrentNode raw) (reverse (traversalPath range raw))
  ∧ (∀ i a b,
       traversalPath range raw !! i = Some a →
       traversalPath range raw !! S i = Some b →
       Mapping raw !! Parent b = Some a)
  ∧ ∃ root,
      head (traversalPath range raw) = Some root
      ∧ (Parent root = ""
         ∨ Mapping raw !! Parent root = None
         ∨ ∃ j, 0 < j ∧ traversalPath range raw !! j = Some root).
Proof.
  intros Hcur Hleaf.
  destruct (walk_enough (S (size (Mapping raw))) (Mapping raw) ∅
              (CurrentNode raw) []) as (p & Hp & _).
  { rewrite difference_empty_L, size_dom. lia. }
  assert (traversalPath range raw
          = if bool_decide (length (reverse p) = 0)
            then timelineByTimestamps range raw else reverse p) as Hpath.
  { unfold traversalPath. by rewrite bool_decide_false, Hp by done. }
  assert (∃ p' root, p = p' ++ [root]
            ∧ (Parent root = "" ∨ Mapping raw !! Parent root = None
               ∨ root ∈ p')) as (p' & root & Hroot & Hstop).
  { destruct (walk_complete _ _ _ _ _ _
                (λ k Hk, False_ind _ (not_elem_of_empty k Hk)) Hp)
      as [[_ [?|Hnone]]|?]; [done| |done].
    by rewrite Hleaf in Hnone. }
  destruct (walk_chain _ _ _ _ _ _ Hp) as (q & -> & Hq).
  simpl in Hpath, Hroot.
  destruct q as [|n q]; [by destruct p'|].
  rewrite bool_decide_false in Hpath
    by (rewrite length_reverse; simpl; lia).
  rewrite Hpath, reverse_involutive.
  destruct Hq as [Hn Hq]. rewrite Hleaf in Hn. injection Hn as <-.
  split; [by rewrite reverse_cons, last_snoc|]. split; [by split|]. split.
  - intros i a b Ha Hb.
    assert (S i < length (leaf :: q)) as Hi.
    { apply lookup_lt_Some in Hb. by rewrite length_reverse in Hb. }
    rewrite reverse_lookup in Ha by lia. rewrite reverse_lookup in Hb by done.
    eapply (chain_lookup (Mapping raw) (CurrentNode raw) (leaf :: q));
      [by split|exact Hb|].
    rewrite <-Ha. f_equal. lia.
  - exists root. rewrite Hroot, reverse_snoc. split; [done|].
    destruct Hstop as [?|[?|Hin]]; [by left|by right; left|].
    right; right.
    apply elem_of_reverse, list_elem_of_lookup_1 in Hin as [j Hj].
    exists (S j). split; [lia|done].
Qed.

(** X19. Without current node, and with a current node that is not in the
    mapping, the timeline is the one of the timestamp fall-back. *)
Theorem traversalPath_fallback (raw : exportConversation) :
  CurrentNode raw = "" ∨ Mapping raw !! CurrentNode raw = None →
  traversalPath range raw = timelineByTimestamps range raw.
Proof.
  intros Hcur. unfold traversalPath. case_bool_decide; [done|].
  destruct Hcur as [?|Hnone]; [done|]. simpl.
  by rewrite !(bool_decide_false (CurrentNode raw = "")), Hnone by done.
Qed.

End Path.

(** ** Cutting texts *)

(** X20. [truncate] leaves a text of at most [limit] bytes as it is. A longer
    text becomes at most [limit + 3] bytes that end with the ellipsis. The
    result is empty for the empty text only. *)
Theorem truncate_spec (text : string) (limit : nat) :
  (Strings.len text ≤ limit → Importer.truncate text limit = text)
  ∧ (limit < Strings.len text →
     Strings.HasSuffix (Importer.truncate text limit) "..." = true)
  ∧ Strings.len (Importer.truncate text limit) ≤ limit + 3
  ∧ (Importer.truncate text limit = "" ↔ text = "").
Proof.
  split; [apply truncate_short|]. split; [apply truncate_long|].
  split; [apply truncate_length|]. split; [apply truncate_empty|].
  intros ->. reflexivity.
Qed.

Lemma traversalPath_chain_witness :
  Importer.CurrentNode Samples.helloExport ≠ ""
  ∧ Importer.Mapping Samples.helloExport !! "n2"
    = Some (Importer.mkNode "n2" "n1" []
              (Some (Samples.textMessage "assistant" "Hi there"
                       (Some (Math.of_int 2000)))))
  ∧ last (Importer.traversalPath Importer.rangeByKey Samples.helloExport)
    = Some (Importer.mkNode "n2" "n1" []
              (Some (Samples.textMessage "assistant" "Hi there"
                       (Some (Math.of_int 2000)))))
  ∧ ∃ root,
      head (Importer.traversalPath Importer.rangeByKey Samples.helloExport)
      = Some root
      ∧ (Importer.Parent root = ""
         ∨ Importer.Mapping Samples.helloExport !! Importer.Parent root = None
         ∨ ∃ j, 0 < j
             ∧ Importer.traversalPath Importer.rangeByKey Samples.helloExport
                 !! j = Some root).
Proof.
  assert (Importer.CurrentNode Samples.helloExport ≠ "") as Hcur
    by (simpl; discriminate).
  split; [exact Hcur|]. split; [reflexivity|].
  destruct (traversalPath_chain Importer.rangeByKey Samples.helloExport _
              Hcur eq_refl) as (Hlast & _ & _ & Hroot).
  split; [exact Hlast|exact Hroot].
Defined.

Lemma traversalPath_fallback_witness :
  (Importer.CurrentNode Samples.mixedExport = ""
   ∨ Importer.Mapping Samples.mixedExport
       !! Importer.CurrentNode Samples.mixedExport = None)
  ∧ Importer.traversalPath Importer.rangeByKey Samples.mixedExport
    = Importer.timelineByTimestamps Importer.rangeByKey Samples.mixedExport.
Proof.
  assert (Importer.CurrentNode Samples.mixedExport = ""
          ∨ Importer.Mapping Samples.mixedExport
              !! Importer.CurrentNode Samples.mixedExport = None) as Hcur
    by (left; reflexivity).
  split; [exact Hcur|].
  exact (traversalPath_fallback Importer.rangeByKey Samples.mixedExport Hcur).
Defined.

Lemma truncate_spec_witness :
  Strings.len "Hello" ≤ 80
  ∧ Importer.truncate "Hello" 80 = "Hello"
  ∧ 240 < Strings.len Samples.longText
  ∧ Strings.HasSuffix (Importer.truncate Samples.longText 240) "..." = true.
Proof.
  assert (Strings.len "Hello" ≤ 80) as Hshort by (vm_compute; lia).
  assert (240 < Strings.len Samples.longText) as Hlong by (vm_compute; lia).
  split; [exact Hshort|].
  split; [exact (proj1 (truncate_spec "Hello" 80) Hshort)|].
  split; [exact Hlong|].
  exact (proj1 (proj2 (truncate_spec Samples.longText 240)) Hlong).
Defined.

(** ** Instants from timestamps *)

Section Parsing.

Import GoTime Importer.
Local Open Scope Z_scope.

Lemma wrap64_range z : - 2 ^ 63 <= wrap64 z < 2 ^ 63.
Proof.
  unfold wrap64. change (2 ^ 63) with 9223372036854775808.
  change (2 ^ 64) with 18446744073709551616.
  pose proof (Z.mod_pos_bound (z + 9223372036854775808) 18446744073709551616).
  lia.
Qed.

Lemma wrap64_small z : - 2 ^ 63 <= z < 2 ^ 63 → wrap64 z = z.
Proof.
  unfold wrap64. change (2 ^ 63) with 9223372036854775808.
  change (2 ^ 64) with 18446744073709551616.
  intros Hz. rewrite Z.mod_small by lia. lia.
Qed.

(** [time.Unix] brings the nanoseconds into the second. *)
Lemma Unix_normalized s n :
  0 <= nsec (Unix s n) < 1000000000 ∧ - 2 ^ 63 <= sec (Unix s n) < 2 ^ 63.
Proof.
  unfold Unix.
  destruct ((n <? 0) || (1000000000 <=? n)) eqn:Hn.
  - pose proof (Z.quot_rem' n 1000000000) as Hqr.
    assert (- 1000000000 < Z.rem n 1000000000 < 1000000000) as Hr.
    { pose proof (Z.rem_bound_abs n 1000000000). lia. }
    destruct (n - n ÷ 1000000000 * 1000000000 <? 0) eqn:Hneg; simpl;
      split; try apply wrap64_range.
    + apply Z.ltb_lt in Hneg. lia.
    + apply Z.ltb_ge in Hneg. lia.
  - apply orb_false_iff in Hn as [?%Z.ltb_ge ?%Z.leb_gt]. simpl.
    split; [lia|apply wrap64_range].
Qed.

(** X21. The instant of a timestamp that parses is not the zero instant, its
    nanoseconds are within the second and its seconds are an [int64]; for a
    timestamp that does not parse the instant is the zero instant. *)
Theorem toTime_normalized (value : option Math.float64) (t : Time) (ok : bool) :
  toTime value = (t, ok) →
  0 <= nsec t < 1000000000
  ∧ - 2 ^ 63 <= sec t < 2 ^ 63
  ∧ (if ok then t ≠ GoTime.zero else t = GoTime.zero).
Proof.
  destruct value as [v|]; [|by intros [= <- <-]].
  rewrite toTime_decoded.
  assert (0 <= nsec (decoded v) < 1000000000
          ∧ - 2 ^ 63 <= sec (decoded v) < 2 ^ 63) as Hd.
  { unfold decoded. destruct (Math.Modf v). apply Unix_normalized. }
  destruct (IsZero (decoded v)) eqn:Hz; intros [= <- <-]; [done|].
  split; [apply Hd|]. split; [apply Hd|].
  intros He%IsZero_zero. congruence.
Qed.

(** X22. A timestamp that is a whole number [z] of seconds is the instant [z]
    seconds after the epoch, without nanoseconds. *)
Theorem toTime_whole_seconds (v : Math.float64) (z : Z) :
  integral v = Some z →
  - 2 ^ 63 <= z < 2 ^ 63 - 62135596800 →
  z ≠ -62135596800 →
  toTime (Some v) = (mkTime (z + 62135596800) 0, true)
  ∧ timestampOrZero (Some v) = mkTime (z + 62135596800) 0.
Proof.
  intros Hv Hz Hne.
  assert (toTime (Some v) = (mkTime (z + 62135596800) 0, true)) as Ht.
  { rewrite toTime_decoded, (decoded_integral v z Hv).
    assert ((- 2 ^ 63 <=? z) && (z <? 2 ^ 63) = true) as ->.
    { apply andb_true_iff. split; [apply Z.leb_le|apply Z.ltb_lt]; lia. }
    assert (Unix z 0 = mkTime (z + 62135596800) 0) as ->.
    { unfold Unix, unixToInternal. simpl. f_equal. apply wrap64_small. lia. }
    unfold IsZero. simpl.
    destruct (Z.eqb_spec (z + 62135596800) 0); [lia|done]. }
  split; [done|]. unfold timestampOrZero. by rewrite Ht.
Qed.

End Parsing.

(** ** Text from content parts *)

Section Parts.

Import Importer.

Lemma append_assoc (a b c : string) : (a +:+ b) +:+ c = a +:+ (b +:+ c).
Proof.
  induction a as [|x a IH]; [done|].
  change (String x ((a +:+ b) +:+ c) = String x (a +:+ b +:+ c)).
  by rewrite IH.
Qed.

Lemma concat_snoc sep (l : list string) (x : string) :
  l ≠ [] →
  String.concat sep (l ++ [x]) = String.concat sep l +:+ sep +:+ x.
Proof.
  induction l as [|y l IH]; [done|]. intros _.
  destruct l as [|y' l]; [done|].
  change (y +:+ sep +:+ String.concat sep ((y' :: l) ++ [x])
          = (y +:+ sep +:+ String.concat sep (y' :: l)) +:+ sep +:+ x).
  rewrite IH by done. by rewrite !append_assoc.
Qed.

Lemma concat_nonempty sep (l : list string) :
  l ≠ [] → Forall (λ s, s ≠ "") l → String.concat sep l ≠ "".
Proof.
  destruct l as [|y l]; [done|]. intros _ [Hy _]%Forall_cons.
  destruct y as [|c y]; [done|]. by destruct l.
Qed.

Lemma cleanedPart_nonempty part s : cleanedPart part = Some s → s ≠ "".
Proof.
  destruct part as [text|]; simpl; [|done].
  case_bool_decide; [done|]. by intros [= <-].
Qed.

Lemma writePart_concat acc part :
  Forall (λ s, s ≠ "") acc →
  writePart (String.concat "

" acc) part
  = String.concat "

" (acc ++ option_list (cleanedPart part)).
Proof.
  intros Hacc. unfold writePart, cleanedPart.
  destruct part as [text|]; [|by rewrite app_nil_r].
  case_bool_decide; simpl; [by rewrite app_nil_r|].
  destruct acc as [|y acc]; [done|].
  rewrite concat_snoc by done.
  pose proof (concat_nonempty "

" (y :: acc)) as Hne.
  destruct (String.concat _ (y :: acc)) as [|c b]; [by destruct Hne|].
  simpl. by rewrite append_assoc.
Qed.

(** X23. The text of a content is its parts that are strings with more than
    white space in them, trimmed and joined by a blank line (and trimmed
    once more); parts that are not strings are left out. Contents of
    another type than ["text"] and ["multimodal_text"] have no text. *)
Theorem collectStringParts_join (content : exportContent) :
  collectStringParts (Parts content)
  = Strings.TrimSpace (String.concat "

" (omap cleanedPart (Parts content)))
  ∧ extractText content
    = if bool_decide (ContentType content = "text"
                      ∨ ContentType content = "multimodal_text")
      then Strings.TrimSpace (String.concat "

" (omap cleanedPart (Parts content)))
      else "".
Proof.
  assert (∀ parts acc, Forall (λ s, s ≠ "") acc →
            foldl writePart (String.concat "

" acc) parts
            = String.concat "

" (acc ++ omap cleanedPart parts)) as Hfold.
  { induction parts as [|part parts IH]; intros acc Hacc; simpl.
    { by rewrite app_nil_r. }
    rewrite writePart_concat by done.
    rewrite IH.
    - rewrite <-(assoc_L (++)). by destruct (cleanedPart part).
    - apply Forall_app. split; [done|].
      destruct (cleanedPart part) as [s|] eqn:Hs; simpl; [|done].
      constructor; [by eapply cleanedPart_nonempty|done]. }
  assert (collectStringParts (Parts content)
          = Strings.TrimSpace (String.concat "

" (omap cleanedPart (Parts content)))) as Hc.
  { unfold collectStringParts. f_equal. by apply (Hfold _ []). }
  split; [done|]. unfold extractText. rewrite Hc.
  repeat case_bool_decide; try done; tauto.
Qed.

End Parts.

Lemma toTime_normalized_witness :
  Importer.toTime (Some (Math.of_int 1000)) = (GoTime.Unix 1000 0, true)
  ∧ (0 <= GoTime.nsec (GoTime.Unix 1000 0) < 1000000000)%Z
  ∧ GoTime.Unix 1000 0 ≠ GoTime.zero.
Proof.
  assert (Importer.toTime (Some (Math.of_int 1000)) = (GoTime.Unix 1000 0, true))
    as Hts by (vm_compute; reflexivity).
  split; [exact Hts|].
  destruct (toTime_normalized _ _ _ Hts) as (Hn & _ & Hz).
  split; [exact Hn|exact Hz].
Defined.

Lemma toTime_whole_seconds_witness :
  integral (Math.of_int 1000) = Some 1000%Z
  ∧ Importer.toTime (Some (Math.of_int 1000))
    = (GoTime.mkTime (1000 + 62135596800) 0, true).
Proof.
  assert (integral (Math.of_int 1000) = Some 1000%Z) as Hv
    by (vm_compute; reflexivity).
  split; [exact Hv|].
  refine (proj1 (toTime_whole_seconds _ _ Hv _ _)); lia.
Defined.

(** ** The import command *)

Section ImportLoop.

Import GoTime Models Storage Command.

Context {error : Type} (saveLocked : gmap string Conversation → option error).

Lemma importItems_cons clock i item items s created updated result :
  importItems error saveLocked clock i (item :: items) s created updated
  = inr result →
  importItems error saveLocked clock (S i) items
    (<[ID item := merged (clock i) (s !! ID item) item]> s)
    (match s !! ID item with Some _ => created | None => S created end)
    (match s !! ID item with Some _ => S updated | None => updated end)
  = inr result.
Proof.
  cbn [importItems]. unfold Get.
  pose proof (Upsert_stores saveLocked (clock i) item s) as HU.
  destruct (Upsert _ _ _ _ _) as [s1 [err|]]; simpl in HU; subst s1;
    by destruct (s !! ID item).
Qed.

Lemma importItems_total clock items : ∀ i s created updated result,
  importItems error saveLocked clock i items s created updated = inr result →
  result.1.2 + result.2 = created + updated + length items.
Proof.
  induction items as [|item items IH]; intros i s created updated result.
  { intros [= <-]. simpl. lia. }
  intros Hr%importItems_cons%IH. simpl. destruct (s !! ID item); lia.
Qed.

Lemma importItems_dom clock items : ∀ i s created updated result,
  importItems error saveLocked clock i items s created updated = inr result →
  dom result.1.1 = dom s ∪ list_to_set (ID <$> items).
Proof.
  induction items as [|item items IH]; intros i s created updated result.
  { intros [= <-]. simpl. by rewrite (right_id_L ∅ (∪)). }
  intros Hr%importItems_cons%IH.
  rewrite Hr, dom_insert_L, fmap_cons, list_to_set_cons.
  rewrite (assoc_L (∪)). f_equal. apply (comm_L (∪)).
Qed.

(** X24. When the loop of the import command ends without an error, the two
    counters have grown by the number of items together, the counter of
    new conversations by the number of entries the store has gained; the
    identifiers of the store are those it had and those of the items, and
    an entry under another identifier is as before. *)
Theorem importItems_counts (clock : nat → Time) (items : list Conversation)
    (i : nat) (s : gmap string Conversation) (created updated : nat)
    (s' : gmap string Conversation) (created' updated' : nat) :
  importItems error saveLocked clock i items s created updated
  = inr (s', created', updated') →
  created' + updated' = created + updated + length items
  ∧ size s' + created = size s + created'
  ∧ dom s' = dom s ∪ list_to_set (ID <$> items)
  ∧ ∀ id, id ∉ ID <$> items → s' !! id = s !! id.
Proof.
  intros Hr.
  split; [exact (importItems_total _ _ _ _ _ _ _ Hr)|].
  split; [|split; [exact (importItems_dom _ _ _ _ _ _ _ Hr)|]];
    revert i s created updated Hr;
    (induction items as [|item items IH]; intros i s created updated;
     [by intros [= <- <- <-]|]); intros Hr%importItems_cons.
  - apply IH in Hr. destruct (s !! ID item) as [c|] eqn:Hs.
    + rewrite map_size_insert_Some in Hr by eauto. lia.
    + rewrite map_size_insert_None in Hr by done. lia.
  - intros id Hid. rewrite fmap_cons, not_elem_of_cons in Hid.
    destruct Hid as [Hne Hid]. rewrite (IH _ _ _ _ Hr) by done.
    by apply lookup_insert_ne.
Qed.

Lemma importItems_store clock items : ∀ i s created updated result,
  Forall (λ c, IsZero (CreatedAt c) = false ∧ IsZero (UpdatedAt c) = false)
         items →
  importItems error saveLocked clock i items s created updated = inr result →
  result.1.1 = foldl (λ m item, <[ID item := item]> m) s items.
Proof.
  induction items as [|item items IH]; intros i s created updated result Hset.
  { by intros [= <-]. }
  apply Forall_cons in Hset as [[Hc Hu] Hset].
  intros Hr%importItems_cons. apply IH in Hr; [|done].
  by rewrite merged_set in Hr.
Qed.

Lemma importItems_known clock items : ∀ i s created updated result,
  list_to_set (ID <$> items) ⊆ dom s →
  importItems error saveLocked clock i items s created updated = inr result →
  result.1.2 = created.
Proof.
  induction items as [|item items IH]; intros i s created updated result Hdom.
  { by intros [= <-]. }
  intros Hr%importItems_cons.
  rewrite fmap_cons, list_to_set_cons in Hdom.
  assert (is_Some (s !! ID item)) as [c Hc].
  { apply elem_of_dom, Hdom, elem_of_union_l. by apply elem_of_singleton. }
  rewrite Hc in Hr. apply IH in Hr; [done|].
  rewrite dom_insert_L. intros k Hk.
  by apply elem_of_union_r, Hdom, elem_of_union_r.
Qed.

(** X25. Importing the same items a second time creates nothing: every item is
    counted as updated, and when the items have their two instants set, as
    the importer's records have, the store after the second import is the
    store after the first. *)
Theorem importItems_again (clock clock' : nat → Time)
    (items : list Conversation) (i j : nat)
    (s s1 s2 : gmap string Conversation) (c u c1 u1 c2 u2 : nat) :
  importItems error saveLocked clock i items s c u = inr (s1, c1, u1) →
  importItems error saveLocked clock' j items s1 0 0 = inr (s2, c2, u2) →
  c2 = 0 ∧ u2 = length items
  ∧ (Forall (λ c, IsZero (CreatedAt c) = false ∧ IsZero (UpdatedAt c) = false)
            items →
     s2 = s1).
Proof.
  intros H1 H2.
  pose proof (importItems_dom _ _ _ _ _ _ _ H1) as Hdom.
  pose proof (importItems_total _ _ _ _ _ _ _ H2) as Hsum.
  simpl in Hdom, Hsum.
  apply importItems_known in H2 as Hc2;
    [|rewrite Hdom; apply union_subseteq_r]. simpl in Hc2.
  split; [done|]. split; [lia|]. intros Hset.
  apply importItems_store in H1; [|done]. apply importItems_store in H2; [|done].
  simpl in H1, H2. rewrite H2, H1, !foldl_insert_union.
  rewrite (assoc_L (∪)). f_equal. apply map_eq. intros k.
  rewrite lookup_union. by destruct (_ !! k).
Qed.

End ImportLoop.

Lemma importItems_counts_witness :
  ∃ s', Command.importItems unit (λ _, None) (λ _, Samples.clockA) 0
          [Samples.incomingBlank; Samples.fresh] Samples.store0 0 0
        = inr (s', 1, 1)
    ∧ 1 + 1 = 0 + 0 + 2
    ∧ size s' + 0 = size Samples.store0 + 1.
Proof.
  eexists. split; [reflexivity|].
  destruct (importItems_counts
              (λ _ : gmap string Models.Conversation, @None unit)
              (λ _, Samples.clockA) [Samples.incomingBlank; Samples.fresh] 0
              Samples.store0 0 0 _ 1 1 eq_refl) as (Hsum & Hsize & _).
  split; [exact Hsum|exact Hsize].
Defined.

Lemma importItems_again_witness :
  ∃ s1 s2 c2 u2,
    Command.importItems unit (λ _, None) (λ _, Samples.clockA) 0
      [Samples.incomingBlank; Samples.fresh] Samples.store0 0 0
    = inr (s1, 1, 1)
    ∧ Command.importItems unit (λ _, None) (λ _, Samples.clockB) 0
        [Samples.incomingBlank; Samples.fresh] s1 0 0
      = inr (s2, c2, u2)
    ∧ c2 = 0 ∧ u2 = 2.
Proof.
  eexists _, _, _, _. split; [reflexivity|]. split; [reflexivity|].
  destruct (importItems_again
              (λ _ : gmap string Models.Conversation, @None unit)
              (λ _, Samples.clockA) (λ _, Samples.clockB)
              [Samples.incomingBlank; Samples.fresh] 0 0
              Samples.store0 _ _ 0 0 1 1 _ _ eq_refl eq_refl)
    as (Hc & Hu & _).
  split; [exact Hc|exact Hu].
Defined.

(** ** The handlers of the API *)

Section HandlerProperties.

Import GoTime Models Storage Api.

Context {error : Type} (errorText : error → string).
Context (saveLocked : gmap string Conversation → option error).

Lemma Upsert_result now r s :
  Upsert error saveLocked now r s
  = (<[ID r := merged now (s !! ID r) r]> s,
     saveLocked (<[ID r := merged now (s !! ID r) r]> s)).
Proof.
  rewrite <-Upsert_stores with (saveLocked := saveLocked). reflexivity.
Qed.

(** X26. [createConversation] answers 400 and leaves the store as it is when the
    title or the summary is blank. Otherwise it puts under the new
    identifier a record with the trimmed fields of the payload, no message,
    and the current time as update instant (and as creation instant when
    the identifier is new); it answers 201 with the record as built, whose
    instants are the zero instant, or 500 when the save fails, the record
    staying in the map. *)
Theorem createConversation_spec (now : Time) (id : string)
    (payload : createPayload) (s : gmap string Conversation) :
  let out :=
    createConversation error errorText saveLocked now id (inr payload) s in
  (Strings.TrimSpace (cTitle payload) = ""
   ∨ Strings.TrimSpace (cSummary payload) = "" →
   out = (s, mkResponse 400 (JSONError "title and summary are required")))
  ∧ (Strings.TrimSpace (cTitle payload) ≠ "" →
     Strings.TrimSpace (cSummary payload) ≠ "" →
     ∃ c, out.1 = <[id := c]> s
       ∧ c = mkConversation id
               (Strings.TrimSpace (cTitle payload))
               (Strings.TrimSpace (cSummary payload))
               (Strings.TrimSpace (cDateStarted payload))
               (Strings.TrimSpace (cDateEnded payload))
               (Strings.TrimSpace (cSourceID payload)) []
               (from_option CreatedAt now (s !! id)) now
       ∧ (saveLocked out.1 = None →
          out.2 = mkResponse 201
                    (JSONConversation
                       (withUpdatedAt (withCreatedAt c GoTime.zero)
                                      GoTime.zero)))
       ∧ (∀ err, saveLocked out.1 = Some err →
          out.2 = mkResponse 500 (JSONError (errorText err)))).
Proof.
  intros out. subst out. unfold createConversation. cbv zeta. split.
  - intros [-> | ->]; [done|]. by rewrite orb_true_r.
  - intros Ht Hs.
    rewrite (bool_decide_false (Strings.TrimSpace (cTitle payload) = ""))
      by done.
    rewrite (bool_decide_false (Strings.TrimSpace (cSummary payload) = ""))
      by done.
    cbn [orb]. rewrite Upsert_result. unfold merged.
    cbn [ID Title Summary DateStarted DateEnded SourceID Messages
         CreatedAt UpdatedAt].
    change (IsZero GoTime.zero) with true. cbv iota.
    destruct (saveLocked _) as [err|] eqn:Hsave; cbn [fst snd];
      (eexists; split; [reflexivity|]; split; [reflexivity|]);
      rewrite Hsave; split; try done; by intros ? [= <-].
Qed.

(** X27. [patchConversation] answers 404 for an identifier that is not in the
    store and 400 when the title or the summary of the payload is blank,
    and leaves the store as it is in both cases. Otherwise the entry gets
    the trimmed fields that the payload has and keeps the others, its
    identifier, source, messages and creation instant; its update instant
    is the time of the request; the answer is 200 with the entry, or 500
    when the save fails, the entry staying changed in the map. *)
Theorem patchConversation_spec (now later : Time) (id : string)
    (payload : patchPayload) (s : gmap string Conversation) :
  let out :=
    patchConversation error errorText saveLocked now later id (inr payload) s
  in
  (s !! id = None → out = (s, mkResponse 404 NotFoundPage))
  ∧ ∀ c, s !! id = Some c →
      (Strings.TrimSpace <$> pTitle payload = Some ""
       ∨ Strings.TrimSpace <$> pSummary payload = Some "" →
       status out.2 = 400 ∧ out.1 = s)
      ∧ (Strings.TrimSpace <$> pTitle payload ≠ Some "" →
         Strings.TrimSpace <$> pSummary payload ≠ Some "" →
         keyed s →
         IsZero now = false →
         ∃ c', out.1 = <[id := c']> s
           ∧ c' = mkConversation id
                    (default (Title c) (Strings.TrimSpace <$> pTitle payload))
                    (default (Summary c)
                       (Strings.TrimSpace <$> pSummary payload))
                    (default (DateStarted c)
                       (Strings.TrimSpace <$> pDateStarted payload))
                    (default (DateEnded c)
                       (Strings.TrimSpace <$> pDateEnded payload))
                    (SourceID c) (Messages c) (CreatedAt c) now
           ∧ (saveLocked out.1 = None →
              out.2 = mkResponse 200 (JSONConversation c'))
           ∧ (∀ err, saveLocked out.1 = Some err →
              out.2 = mkResponse 500 (JSONError (errorText err)))).
Proof.
  intros out. subst out. unfold patchConversation, Get. cbv zeta. split.
  { by intros ->. }
  intros c Hc. rewrite Hc. split.
  - intros [Ht | Hs].
    + by rewrite (bool_decide_true _ Ht).
    + case_bool_decide; [done|]. by rewrite (bool_decide_true _ Hs).
  - intros Ht Hs Hk Hnow.
    rewrite (bool_decide_false _ Ht), (bool_decide_false _ Hs).
    rewrite Upsert_result.
    pose proof (Hk _ _ Hc) as Hid.
    destruct c as [i ti su ds de so ms ca ua]. simpl in Hid. subst i.
    destruct payload as [[t|] [u|] [d|] [e|]];
      cbn [pTitle pSummary pDateStarted pDateEnded fmap option_fmap option_map
           from_option default withTitle withUpdatedAt withCreatedAt
           ID Title Summary DateStarted DateEnded SourceID Messages
           CreatedAt UpdatedAt UTC fst snd];
      unfold merged, withUpdatedAt, withTitle, UTC;
      cbn [ID Title Summary DateStarted DateEnded SourceID Messages
           CreatedAt UpdatedAt];
      rewrite Hc, Hnow; cbn [from_option CreatedAt];
      (destruct (IsZero ca);
       destruct (saveLocked _) as [err|] eqn:Hsave; cbn [fst snd];
       (eexists; split; [reflexivity|]; split; [reflexivity|]);
       rewrite Hsave; split; try done; by intros ? [= <-]).
Qed.

End HandlerProperties.

Lemma createConversation_spec_witness :
  Strings.TrimSpace (Api.cTitle Samples.createHello) ≠ ""
  ∧ Strings.TrimSpace (Api.cSummary Samples.createHello) ≠ ""
  ∧ ∃ c, (Api.createConversation unit (λ _, "") (λ _, None) Samples.clockA
            "id1" (inr Samples.createHello) Samples.store0).1
         = <["id1" := c]> Samples.store0
      ∧ Models.Title c = "Notes"
      ∧ Models.CreatedAt c = Samples.clockA.
Proof.
  assert (Strings.TrimSpace (Api.cTitle Samples.createHello) ≠ "") as Ht
    by (vm_compute; discriminate).
  assert (Strings.TrimSpace (Api.cSummary Samples.createHello) ≠ "") as Hs
    by (vm_compute; discriminate).
  split; [exact Ht|]. split; [exact Hs|].
  destruct (proj2 (createConversation_spec (λ _ : unit, "") (λ _, None)
                     Samples.clockA "id1" Samples.createHello Samples.store0)
                  Ht Hs) as (c & Hout & Hc & _).
  exists c. split; [exact Hout|]. rewrite Hc. split; reflexivity.
Defined.

Lemma patchConversation_spec_witness :
  Samples.store0 !! "c1" = Some Samples.stored
  ∧ keyed Samples.store0
  ∧ GoTime.IsZero Samples.clockA = false
  ∧ ∃ c, (Api.patchConversation unit (λ _, "") (λ _, None) Samples.clockA
            Samples.clockB "c1" (inr Samples.patchTitle) Samples.store0).1
         = <["c1" := c]> Samples.store0
      ∧ Models.Title c = "Renamed"
      ∧ Models.Summary c = Models.Summary Samples.stored
      ∧ Models.UpdatedAt c = Samples.clockA.
Proof.
  split; [reflexivity|]. split; [exact store0_keyed|]. split; [reflexivity|].
  assert (Strings.TrimSpace <$> Api.pTitle Samples.patchTitle ≠ Some "") as Ht
    by (vm_compute; discriminate).
  assert (Strings.TrimSpace <$> Api.pSummary Samples.patchTitle ≠ Some "")
    as Hs by (simpl; discriminate).
  destruct (proj2 (proj2 (patchConversation_spec (λ _ : unit, "") (λ _, None)
                            Samples.clockA Samples.clockB "c1"
                            Samples.patchTitle Samples.store0)
                         Samples.stored eq_refl)
                  Ht Hs store0_keyed eq_refl) as (c & Hout & Hc & _).
  exists c. split; [exact Hout|]. rewrite Hc. repeat split; reflexivity.
Defined.
